(** * Smart-scale prototype: packet decoder, unit conversion and connector

    A shallow embedding of the TypeScript sources

    - [app/utils/scaleUtils.ts]   ([UNIT_MAP], [parseScaleData], [convertWeight]),
    - [app/types/scale.ts]        ([ScaleReading], [NutritionData]),
    - [app/utils/nutritionApi.ts] ([getNutritionData], [calculateNutritionForWeight]),
    - [app/components/ScaleConnector.tsx] (the React component that owns the
      Bluetooth session),

    followed by the properties of the specification that these functions decide.

    JavaScript numbers are IEEE 754 binary64 values; they are embedded as Rocq's
    primitive floats, which are the same format, so [NaN], rounding of [x / 10]
    and the comparisons behave as they do in the engine.  Integers read out of a
    [DataView] are kept in [Z] until the code does arithmetic on them. *)

From Stdlib Require Import ZArith Lia Floats Bool.
From Stdlib Require Uint63.
From Stdlib.Strings Require Byte.
From stdpp Require Import base option list strings gmap.

#[local] Set Warnings "-inexact-float".
#[local] Open Scope Z_scope.

(** ** JavaScript values the sources rely on *)

Module JS.

(** What a [throw] carries.  [instanceof Error] separates the first two
    constructors from the last. *)
Inductive exn : Type :=
| RangeError
| Error (message : string)
| NonError.

(** A computation either completes with a value or throws. *)
Inductive result (A : Type) : Type :=
| Ok (a : A)
| Throw (e : exn).
#[global] Arguments Ok {A} a.
#[global] Arguments Throw {A} e.

#[global] Instance result_ret : MRet result := fun _ a => Ok a.
#[global] Instance result_bind : MBind result :=
  fun _ _ k m => match m with Ok a => k a | Throw e => Throw e end.

(** [try { body } catch (e) { handler }] at the places where the handler only
    logs: the exception is swallowed and [fallback] is what the surrounding
    code continues with. *)
Definition try_catch {A} (body : result A) (fallback : A) : A :=
  match body with Ok a => a | Throw _ => fallback end.

(** The number denoted by an integer (exact below 2^53). *)
Definition num (z : Z) : float :=
  if z <? 0 then (- PrimFloat.of_uint63 (Uint63.of_Z (- z)))%float
  else PrimFloat.of_uint63 (Uint63.of_Z z).

Definition NaN : float := nan.

(** [ToBoolean] on a number: [0], [-0] and [NaN] are falsy. *)
Definition truthy (x : float) : bool :=
  negb (PrimFloat.is_nan x || PrimFloat.is_zero x).

(** [ToNumber] on the result of a property read: a missing property reads as
    [undefined], which converts to [NaN]. *)
Definition toNumber (v : option float) : float :=
  match v with Some x => x | None => NaN end.

(** [v || d] for an optional number. *)
Definition or_default (v : option float) (d : float) : float :=
  match v with
  | Some x => if truthy x then x else d
  | None => d
  end.

(** [Math.round]: the integer nearest to [x], ties towards +infinity; [NaN],
    the infinities and the zeros are returned as they are, and a negative
    argument that rounds to zero gives [-0]. *)
Definition Math_round (x : float) : float :=
  match Prim2SF x with
  | S754_finite s m e =>
      if 0 <=? e then x
      else
        let v := if s then Z.neg m else Z.pos m in
        let den := 2 ^ (- e) in
        let r := (2 * v + den) / (2 * den) in
        if (r =? 0) && s then (-0)%float else num r
  | _ => x
  end.

End JS.
Export JS.

(** ** [app/types/scale.ts] *)

Module ScaleTypes.

(** The union of string literals of [ScaleReading.unit]. *)
Inductive Unit : Type := g | oz | lb | kg | ml | fl_oz.

#[global] Instance Unit_eq_dec : EqDecision Unit.
Proof. solve_decision. Defined.

(** The string each literal stands for. *)
Definition unit_string (u : Unit) : string :=
  match u with
  | g => "g" | oz => "oz" | lb => "lb" | kg => "kg" | ml => "ml"
  | fl_oz => "fl oz"
  end.

Record ScaleReading : Type := {
  weight : float;
  unit : Unit;
  isStable : bool;
  timestamp : Z;
}.

(** [NutritionData]; the optional members are [None] when [undefined]. *)
Record NutritionData : Type := {
  nd_ingredient : string;
  nd_weight : float;
  nd_unit : string;
  calories : float;
  protein : float;
  carbs : float;
  fat : float;
  fiber : option float;
  sugar : option float;
  sodium : option float;
  calcium : option float;
  iron : option float;
  vitaminC : option float;
}.

(** [Partial<NutritionData>] as the lookups produce it: every nutrient may be
    missing. *)
Record BaseData : Type := {
  b_calories : option float;
  b_protein : option float;
  b_carbs : option float;
  b_fat : option float;
  b_fiber : option float;
  b_sugar : option float;
  b_sodium : option float;
  b_calcium : option float;
  b_iron : option float;
  b_vitaminC : option float;
}.

End ScaleTypes.
Export ScaleTypes.

(** ** [app/utils/scaleUtils.ts] *)

Module ScaleUtils.

(** A [DataView] is read only through [byteLength], [getUint8] and
    [getUint16]; it is the sequence of the bytes in view. *)
Definition DataView : Type := list Byte.byte.

Definition byteLength (data : DataView) : Z := Z.of_nat (length data).

Definition byte_at (data : DataView) (i : Z) : option Z :=
  (fun b => Z.of_N (Byte.to_N b)) <$> data !! Z.to_nat i.

(** [DataView.prototype.getUint8]: a [RangeError] outside the view. *)
Definition getUint8 (data : DataView) (byteOffset : Z) : result Z :=
  if (byteOffset <? 0) || (byteLength data <? byteOffset + 1) then Throw RangeError
  else match byte_at data byteOffset with
       | Some b => Ok b
       | None => Throw RangeError
       end.

(** [DataView.prototype.getUint16]: both bytes must lie inside the view. *)
Definition getUint16 (data : DataView) (byteOffset : Z) (littleEndian : bool)
  : result Z :=
  if (byteOffset <? 0) || (byteLength data <? byteOffset + 2) then Throw RangeError
  else match byte_at data byteOffset, byte_at data (byteOffset + 1) with
       | Some b0, Some b1 =>
           Ok (if littleEndian then b0 + 256 * b1 else 256 * b0 + b1)
       | _, _ => Throw RangeError
       end.

(** [UNIT_MAP]: the seven unit codes of the ESN00. *)
Definition UNIT_MAP (code : Z) : option Unit :=
  match code with
  | 0 => Some g
  | 1 => Some oz
  | 2 => Some g
  | 3 => Some fl_oz
  | 4 => Some ml
  | 5 => Some fl_oz
  | 6 => Some oz
  | _ => None
  end.

(** [UNIT_MAP[unitCode] || "g"]. *)
Definition unit_of_code (unitCode : Z) : Unit :=
  default g (UNIT_MAP unitCode).

(** The acceptance tests on the raw magnitudes. *)
Definition method1_accepts (rawWeight : Z) : bool :=
  (rawWeight >? 0) && (rawWeight <? 50000).

Definition method2_plausible (rawWeight nextByte : Z) : bool :=
  (rawWeight >? 0) && (rawWeight <? 10000) && (nextByte <=? 6).

(** Method 1, the body of the inner [try]: sign at byte 10, little-endian
    magnitude at byte 11, unit code at byte 14 when the view is that long.
    [Ok (Some r)] is [return r]; [Ok None] falls out of the [if]. *)
Definition method1_try (data : DataView) (now : Z) : result (option ScaleReading) :=
  b10 ← getUint8 data 10;
  let sign := if b10 =? 0 then 1 else -1 in
  rawWeight ← getUint16 data 11 true;
  unitCode ← (if byteLength data >? 14 then getUint8 data 14 else Ok 0);
  let isStable := true in
  if method1_accepts rawWeight then
    let unit := unit_of_code unitCode in
    let divisor := if unitCode =? 2 then 10 else 1 in
    let weight := ((num sign * num rawWeight) / num divisor)%float in
    Ok (Some {| weight := weight; unit := unit; isStable := isStable;
                timestamp := now |})
  else Ok None.

(** [if (data.byteLength >= 12) { try { ... } catch (e) { log } }]. *)
Definition method1 (data : DataView) (now : Z) : option ScaleReading :=
  if byteLength data >=? 12 then try_catch (method1_try data now) None
  else None.

(** Method 2, the body of the [try] inside the scan, at one offset. *)
Definition method2_try (data : DataView) (now : Z) (offset : Z)
  : result (option ScaleReading) :=
  rawWeight ← getUint16 data offset false;
  nextByte ← (if offset + 2 <? byteLength data then getUint8 data (offset + 2)
              else Ok 0);
  if method2_plausible rawWeight nextByte then
    sign ← (if offset >? 0
            then b ← getUint8 data (offset - 1); Ok (if b =? 0 then 1 else -1)
            else Ok 1);
    let unitCode := nextByte in
    isStable ← (if offset + 3 <? byteLength data
                then b ← getUint8 data (offset + 3); Ok (b =? 1)
                else Ok true);
    let unit := unit_of_code unitCode in
    let divisor := if (unitCode =? 2) || (unitCode >=? 3) then 10 else 1 in
    let weight := ((num sign * num rawWeight) / num divisor)%float in
    if (0 <? weight)%float && (weight <=? 5000)%float then
      Ok (Some {| weight := weight; unit := unit; isStable := isStable;
                  timestamp := now |})
    else Ok None
  else Ok None.

(** [for (let offset = ...; offset <= data.byteLength - 4; offset++)], with
    [trips] iterations left: a reading returns at once, anything else (also
    an exception, which the [catch] drops) moves on to the next offset. *)
Fixpoint method2_from (data : DataView) (now : Z) (offset : Z) (trips : nat)
  : option ScaleReading :=
  match trips with
  | O => None
  | S trips' =>
      match try_catch (method2_try data now offset) None with
      | Some r => Some r
      | None => method2_from data now (offset + 1) trips'
      end
  end.

(** The scan starts at offset 0 and visits the offsets [0 .. byteLength - 4]. *)
Definition method2 (data : DataView) (now : Z) : option ScaleReading :=
  method2_from data now 0 (Z.to_nat (byteLength data - 3)).

(** The outer [try] block of [parseScaleData]. *)
Definition parseScaleData_body (data : DataView) (now : Z)
  : result (option ScaleReading) :=
  if byteLength data =? 8 then Ok None
  else if byteLength data =? 12 then
    match method1 data now with
    | Some r => Ok (Some r)
    | None =>
        match method2 data now with
        | Some r => Ok (Some r)
        | None => Ok None
        end
    end
  else Ok None.

(** [parseScaleData]; [now] is what [Date.now()] answers during the call. *)
Definition parseScaleData (data : DataView) (now : Z)
  : result (option ScaleReading) :=
  if byteLength data <? 3 then Ok None
  else Ok (try_catch (parseScaleData_body data now) None).

(** [convertWeight]'s two tables.  A key that is not listed reads as
    [undefined] (or, for a name inherited from [Object.prototype], as a
    function or an object); [ToNumber] turns each of them into [NaN]. *)
Definition toGrams : gmap string float :=
  list_to_map [("g", 1%float); ("oz", 28.3495%float); ("lb", 453.592%float);
               ("kg", 1000%float)].

Definition fromGrams : gmap string float :=
  list_to_map [("g", 1%float); ("oz", (1 / 28.3495)%float);
               ("lb", (1 / 453.592)%float); ("kg", (1 / 1000)%float)].

Definition convertWeight (weight : float) (fromUnit toUnit : string) : float :=
  if String.eqb fromUnit toUnit then weight
  else
    let grams := (weight * toNumber (toGrams !! fromUnit))%float in
    (grams * toNumber (fromGrams !! toUnit))%float.

End ScaleUtils.
Export ScaleUtils.

(** ** [app/utils/nutritionApi.ts] *)

Module NutritionApi.

(** [Math.round(x * factor * 10) / 10]. *)
Definition round1 (x factor : float) : float :=
  (Math_round (x * factor * 10) / 10)%float.

(** [v ? Math.round(v * factor * 10) / 10 : undefined]. *)
Definition optional_nutrient (v : option float) (factor : float) : option float :=
  match v with
  | Some x => if truthy x then Some (round1 x factor) else None
  | None => None
  end.

Definition calculateNutritionForWeight
    (baseData : BaseData) (ingredient : string) (weightInGrams : float)
  : NutritionData :=
  let factor := (weightInGrams / 100)%float in
  {| nd_ingredient := ingredient;
     nd_weight := weightInGrams;
     nd_unit := "g";
     calories := Math_round (or_default (b_calories baseData) 0 * factor);
     protein := round1 (or_default (b_protein baseData) 0) factor;
     carbs := round1 (or_default (b_carbs baseData) 0) factor;
     fat := round1 (or_default (b_fat baseData) 0) factor;
     fiber := optional_nutrient (b_fiber baseData) factor;
     sugar := optional_nutrient (b_sugar baseData) factor;
     sodium := optional_nutrient (b_sodium baseData) factor;
     calcium := optional_nutrient (b_calcium baseData) factor;
     iron := optional_nutrient (b_iron baseData) factor;
     vitaminC := optional_nutrient (b_vitaminC baseData) factor |}.

(** [fetchUSDANutrition] waits and resolves to [null]. *)
Definition fetchUSDANutrition (_ingredient : string) : result (option BaseData) :=
  Ok None.

Section Lookup.

(** [getMockNutritionData], the search of the built-in table by ingredient
    name.  The properties below do not depend on what it finds, so the
    table and the name matching stay abstract. *)
Variable getMockNutritionData : string -> BaseData.

(** The value the promise returned by [getNutritionData] resolves to. *)
Definition getNutritionData (ingredient : string) (weight : float) (unit : string)
  : NutritionData :=
  let weightInGrams := convertWeight weight unit "g" in
  match try_catch (fetchUSDANutrition ingredient) None with
  | Some usdaData => calculateNutritionForWeight usdaData ingredient weightInGrams
  | None =>
      let mockData := getMockNutritionData ingredient in
      calculateNutritionForWeight mockData ingredient weightInGrams
  end.

End Lookup.

End NutritionApi.
Export NutritionApi.

(** ** [app/components/ScaleConnector.tsx]

    The component keeps six [useState] cells.  Every function it defines
    ([handleCharacteristicValueChanged], [connectToScaleDevice], [disconnect])
    is created during a render and reads the cells as that render saw them; a
    setter writes the cell for the renders that follow.  A function that was
    handed to the platform ([addEventListener]) or that is suspended at an
    [await] keeps the values of the render it came from.  The model therefore
    passes to each function the [Render] it closes over, next to the [World] it
    acts on. *)

Module ScaleConnector.

Inductive ConnectionState : Type :=
| st_disconnected | st_connecting | st_connected | st_error.

#[global] Instance ConnectionState_eq_dec : EqDecision ConnectionState.
Proof. solve_decision. Defined.

(** Platform objects are known by their identity. *)
Definition BluetoothDevice : Type := nat.
Definition BluetoothRemoteGATTCharacteristic : Type := nat.

(** The [useState] cells. *)
Record State : Type := {
  connectionState : ConnectionState;
  device : option BluetoothDevice;
  characteristic : option BluetoothRemoteGATTCharacteristic;
  currentReading : option ScaleReading;
  error : option string;
  lastStableReading : option ScaleReading;
}.

Definition initialState : State :=
  {| connectionState := st_disconnected; device := None; characteristic := None;
     currentReading := None; error := None; lastStableReading := None |}.

(** What a render hands to the functions it creates: the cells, and the
    identity of the memoised [handleCharacteristicValueChanged]
    ([useCallback] returns a new function when [lastStableReading] or
    [onStableReading] changed since the previous render). *)
Record Render : Type := {
  r_state : State;
  r_handler : nat;
}.

Definition firstRender : Render := {| r_state := initialState; r_handler := O |}.

(** The calls on the platform and on the consumer that the properties speak
    about, in the order they happen. *)
Inductive Call : Type :=
| requestScaleDevice_resolved (d : BluetoothDevice)
| connectToScale_resolved (d : BluetoothDevice) (c : BluetoothRemoteGATTCharacteristic)
| startNotifications_resolved (c : BluetoothRemoteGATTCharacteristic)
| removeEventListener_called (c : BluetoothRemoteGATTCharacteristic) (handler : nat)
| gatt_disconnect_called (d : BluetoothDevice)
| onStableReading_called (reading : ScaleReading).

(** A promise is rejected with an [Error] (a [DOMException] is one) or with
    some other value. *)
Inductive Rejection : Type :=
| rejected_Error (message : string)
| rejected_other.

(** How [connectToScale] ends: [gatt.connect()] fails, or the link is up and
    the service or the characteristic is not found, or the characteristic is
    returned. *)
Inductive ConnectOutcome : Type :=
| gatt_connect_rejected (e : Rejection)
| getPrimaryService_rejected (e : Rejection)
| getCharacteristic_rejected (e : Rejection)
| characteristic_found (c : BluetoothRemoteGATTCharacteristic).

(** A run of [connectToScaleDevice] that is suspended at one of its three
    [await]s, with the render it was started from. *)
Inductive Pending : Type :=
| await_requestScaleDevice (r : Render)
| await_connectToScale (r : Render) (scaleDevice : BluetoothDevice)
| await_startNotifications (r : Render) (scaleDevice : BluetoothDevice)
    (char : BluetoothRemoteGATTCharacteristic).

Record World : Type := {
  state : State;
  (** identity of the handler the next render will create *)
  handler : nat;
  (** [isBluetoothSupported()] *)
  bluetoothSupported : bool;
  (** the devices whose [gatt.connected] is [true] *)
  gatt_connected : gset BluetoothDevice;
  (** [characteristicvaluechanged] listeners: characteristic, identity of the
      function, and the render that function closes over *)
  value_listeners : list (BluetoothRemoteGATTCharacteristic * Render);
  (** [gattserverdisconnected] listeners *)
  disconnect_listeners : list BluetoothDevice;
  pending : list Pending;
  log : list Call;
}.

Definition initialWorld (supported : bool) : World :=
  {| state := initialState; handler := O; bluetoothSupported := supported;
     gatt_connected := ∅; value_listeners := []; disconnect_listeners := [];
     pending := []; log := [] |}.

Definition render (w : World) : Render :=
  {| r_state := state w; r_handler := handler w |}.

(** *** Writes *)

Definition with_state (f : State -> State) (w : World) : World :=
  {| state := f (state w); handler := handler w;
     bluetoothSupported := bluetoothSupported w;
     gatt_connected := gatt_connected w; value_listeners := value_listeners w;
     disconnect_listeners := disconnect_listeners w; pending := pending w;
     log := log w |}.

Definition setConnectionState (v : ConnectionState) : World -> World :=
  with_state (fun s =>
    {| connectionState := v; device := device s;
       characteristic := characteristic s; currentReading := currentReading s;
       error := error s; lastStableReading := lastStableReading s |}).

Definition setDevice (v : option BluetoothDevice) : World -> World :=
  with_state (fun s =>
    {| connectionState := connectionState s; device := v;
       characteristic := characteristic s; currentReading := currentReading s;
       error := error s; lastStableReading := lastStableReading s |}).

Definition setCharacteristic (v : option BluetoothRemoteGATTCharacteristic)
  : World -> World :=
  with_state (fun s =>
    {| connectionState := connectionState s; device := device s;
       characteristic := v; currentReading := currentReading s;
       error := error s; lastStableReading := lastStableReading s |}).

Definition setCurrentReading (v : option ScaleReading) : World -> World :=
  with_state (fun s =>
    {| connectionState := connectionState s; device := device s;
       characteristic := characteristic s; currentReading := v;
       error := error s; lastStableReading := lastStableReading s |}).

Definition setError (v : option string) : World -> World :=
  with_state (fun s =>
    {| connectionState := connectionState s; device := device s;
       characteristic := characteristic s; currentReading := currentReading s;
       error := v; lastStableReading := lastStableReading s |}).

Definition setLastStableReading (v : option ScaleReading) : World -> World :=
  with_state (fun s =>
    {| connectionState := connectionState s; device := device s;
       characteristic := characteristic s; currentReading := currentReading s;
       error := error s; lastStableReading := v |}).

Definition record (c : Call) (w : World) : World :=
  {| state := state w; handler := handler w;
     bluetoothSupported := bluetoothSupported w;
     gatt_connected := gatt_connected w; value_listeners := value_listeners w;
     disconnect_listeners := disconnect_listeners w; pending := pending w;
     log := log w ++ [c] |}.

Definition set_pending (p : list Pending) (w : World) : World :=
  {| state := state w; handler := handler w;
     bluetoothSupported := bluetoothSupported w;
     gatt_connected := gatt_connected w; value_listeners := value_listeners w;
     disconnect_listeners := disconnect_listeners w; pending := p;
     log := log w |}.

Definition set_gatt_connected (g' : gset BluetoothDevice) (w : World) : World :=
  {| state := state w; handler := handler w;
     bluetoothSupported := bluetoothSupported w;
     gatt_connected := g'; value_listeners := value_listeners w;
     disconnect_listeners := disconnect_listeners w; pending := pending w;
     log := log w |}.

Definition set_value_listeners
    (l : list (BluetoothRemoteGATTCharacteristic * Render)) (w : World) : World :=
  {| state := state w; handler := handler w;
     bluetoothSupported := bluetoothSupported w;
     gatt_connected := gatt_connected w; value_listeners := l;
     disconnect_listeners := disconnect_listeners w; pending := pending w;
     log := log w |}.

Definition set_disconnect_listeners (l : list BluetoothDevice) (w : World) : World :=
  {| state := state w; handler := handler w;
     bluetoothSupported := bluetoothSupported w;
     gatt_connected := gatt_connected w; value_listeners := value_listeners w;
     disconnect_listeners := l; pending := pending w; log := log w |}.

(** The next render creates a handler with a new identity. *)
Definition new_handler (w : World) : World :=
  {| state := state w; handler := S (handler w);
     bluetoothSupported := bluetoothSupported w;
     gatt_connected := gatt_connected w; value_listeners := value_listeners w;
     disconnect_listeners := disconnect_listeners w; pending := pending w;
     log := log w |}.

(** *** The platform's listener lists *)

Definition same_listener (c : BluetoothRemoteGATTCharacteristic) (h : nat)
    (l : BluetoothRemoteGATTCharacteristic * Render) : bool :=
  bool_decide (l.1 = c) && bool_decide (r_handler l.2 = h).

(** [addEventListener] ignores a function that is already registered. *)
Definition addEventListener (c : BluetoothRemoteGATTCharacteristic) (r : Render)
    (w : World) : World :=
  if existsb (same_listener c (r_handler r)) (value_listeners w) then w
  else set_value_listeners (value_listeners w ++ [(c, r)]) w.

(** [removeEventListener] removes the function with that identity, if it is
    registered. *)
Definition removeEventListener (c : BluetoothRemoteGATTCharacteristic) (h : nat)
    (w : World) : World :=
  record (removeEventListener_called c h)
    (set_value_listeners
       (List.filter (fun l => negb (same_listener c h l)) (value_listeners w)) w).

(** *** The consumer's callback

    [onStableReading] is the parent's [handleStableReading]: it stores the
    reading in the parent, which renders again and passes a new function
    down, so the next render of the connector memoises a new handler. *)
Definition onStableReading (reading : ScaleReading) (w : World) : World :=
  new_handler (record (onStableReading_called reading) w).

(** *** [handleCharacteristicValueChanged]

    [r] is the render the function was created in; [value] is
    [event.target.value]. *)
Definition differs_from (last : option ScaleReading) (reading : ScaleReading) : bool :=
  match last with
  | None => true
  | Some l =>
      negb (weight l =? weight reading)%float
      || negb (bool_decide (unit l = unit reading))
  end.

Definition handleCharacteristicValueChanged (r : Render)
    (value : option DataView) (now : Z) (w : World) : World :=
  match value with
  | None => w
  | Some data =>
      match parseScaleData data now with
      | Ok (Some reading) =>
          let w := setCurrentReading (Some reading) w in
          if isStable reading && differs_from (lastStableReading (r_state r)) reading
          then onStableReading reading (setLastStableReading (Some reading) w)
          else w
      | Ok None => w
      | Throw _ => w
      end
  end.

(** *** [connectToScaleDevice] *)

Definition message_of (e : Rejection) : string :=
  match e with
  | rejected_Error message => message
  | rejected_other => "Failed to connect to scale"
  end.

(** The [catch] block. *)
Definition connect_failed (e : Rejection) (w : World) : World :=
  setConnectionState st_error (setError (Some (message_of e)) w).

(** From the call to the first [await]. *)
Definition connectToScaleDevice (r : Render) (w : World) : World :=
  if negb (bluetoothSupported w) then
    setConnectionState st_error
      (setError (Some "Web Bluetooth is not supported in this browser") w)
  else
    set_pending (pending w ++ [await_requestScaleDevice r])
      (setError None (setConnectionState st_connecting w)).

(** [requestScaleDevice()] settles for the suspended run number [i]. *)
Definition requestScaleDevice_settled (i : nat) (outcome : BluetoothDevice + Rejection)
    (w : World) : World :=
  match pending w !! i with
  | Some (await_requestScaleDevice r) =>
      match outcome with
      | inl scaleDevice =>
          set_pending (<[i := await_connectToScale r scaleDevice]> (pending w))
            (setDevice (Some scaleDevice)
               (record (requestScaleDevice_resolved scaleDevice) w))
      | inr e => connect_failed e (set_pending (delete i (pending w)) w)
      end
  | _ => w
  end.

(** [connectToScale(scaleDevice)] settles. *)
Definition connectToScale_settled (i : nat) (outcome : ConnectOutcome) (w : World)
  : World :=
  match pending w !! i with
  | Some (await_connectToScale r scaleDevice) =>
      let linked := set_gatt_connected ({[scaleDevice]} ∪ gatt_connected w) in
      match outcome with
      | gatt_connect_rejected e =>
          connect_failed e (set_pending (delete i (pending w)) w)
      | getPrimaryService_rejected e | getCharacteristic_rejected e =>
          connect_failed e (set_pending (delete i (pending w)) (linked w))
      | characteristic_found char =>
          set_pending (<[i := await_startNotifications r scaleDevice char]> (pending w))
            (setCharacteristic (Some char)
               (record (connectToScale_resolved scaleDevice char) (linked w)))
      end
  | _ => w
  end.

(** [char.startNotifications()] settles; on success the two listeners are
    registered and the state becomes [connected]. *)
Definition startNotifications_settled (i : nat) (outcome : () + Rejection)
    (w : World) : World :=
  match pending w !! i with
  | Some (await_startNotifications r scaleDevice char) =>
      let w := set_pending (delete i (pending w)) w in
      match outcome with
      | inl _ =>
          let w := record (startNotifications_resolved char) w in
          let w := addEventListener char r w in
          let w := set_disconnect_listeners (disconnect_listeners w ++ [scaleDevice]) w in
          setConnectionState st_connected w
      | inr e => connect_failed e w
      end
  | _ => w
  end.

(** *** The [gattserverdisconnected] listener *)
Definition on_gattserverdisconnected (w : World) : World :=
  setCurrentReading None
    (setCharacteristic None (setDevice None (setConnectionState st_disconnected w))).

(** *** [disconnect] *)
Definition disconnect (r : Render) (w : World) : World :=
  let w :=
    match characteristic (r_state r) with
    | Some c => removeEventListener c (r_handler r) w
    | None => w
    end in
  let w :=
    match device (r_state r) with
    | Some d =>
        if bool_decide (d ∈ gatt_connected w)
        then record (gatt_disconnect_called d)
               (set_gatt_connected (gatt_connected w ∖ {[d]}) w)
        else w
    | None => w
    end in
  setError None
    (setCurrentReading None
       (setCharacteristic None (setDevice None (setConnectionState st_disconnected w)))).

(** *** The button: [onClick] is [disconnect] when connected and
    [connectToScaleDevice] otherwise; it is disabled while connecting. *)
Definition button_onClick (w : World) : World :=
  match connectionState (state w) with
  | st_connecting => w
  | st_connected => disconnect (render w) w
  | st_disconnected | st_error => connectToScaleDevice (render w) w
  end.

(** *** What can happen to a mounted connector *)
Inductive Event : Type :=
| click
| call_connectToScaleDevice
| call_disconnect
| requestScaleDevice_settles (i : nat) (outcome : BluetoothDevice + Rejection)
| connectToScale_settles (i : nat) (outcome : ConnectOutcome)
| startNotifications_settles (i : nat) (outcome : () + Rejection)
| characteristicvaluechanged (c : BluetoothRemoteGATTCharacteristic)
    (value : option DataView) (now : Z)
| gattserverdisconnected (d : BluetoothDevice)
| parent_renders.

(** The platform dispatches an event to the listeners registered for its
    target, in the order of registration. *)
Definition dispatch_value (c : BluetoothRemoteGATTCharacteristic)
    (value : option DataView) (now : Z) (w : World) : World :=
  foldl (fun w l =>
           if bool_decide (l.1 = c)
           then handleCharacteristicValueChanged l.2 value now w else w)
        w (value_listeners w).

Definition dispatch_disconnected (d : BluetoothDevice) (w : World) : World :=
  foldl (fun w d' => if bool_decide (d' = d) then on_gattserverdisconnected w else w)
        (set_gatt_connected (gatt_connected w ∖ {[d]}) w)
        (disconnect_listeners w).

Definition step (ev : Event) (w : World) : World :=
  match ev with
  | click => button_onClick w
  | call_connectToScaleDevice => connectToScaleDevice (render w) w
  | call_disconnect => disconnect (render w) w
  | requestScaleDevice_settles i outcome => requestScaleDevice_settled i outcome w
  | connectToScale_settles i outcome => connectToScale_settled i outcome w
  | startNotifications_settles i outcome => startNotifications_settled i outcome w
  | characteristicvaluechanged c value now => dispatch_value c value now w
  | gattserverdisconnected d => dispatch_disconnected d w
  | parent_renders => new_handler w
  end.

Definition run (evs : list Event) (w : World) : World :=
  foldl (fun w ev => step ev w) w evs.

Inductive reachable (supported : bool) : World -> Prop :=
| reachable_initial : reachable supported (initialWorld supported)
| reachable_step w ev : reachable supported w -> reachable supported (step ev w).

(** The number of times the consumer was told of a new stable reading. *)
Definition notifications (w : World) : nat :=
  length (List.filter (fun c => match c with onStableReading_called _ => true | _ => false end)
                      (log w)).

(** The teardown calls made so far. *)
Definition teardown_calls (w : World) : list Call :=
  List.filter (fun c => match c with
                        | removeEventListener_called _ _ | gatt_disconnect_called _ => true
                        | _ => false
                        end) (log w).

(** The three steps of the handshake occur in the log in this order. *)
Definition handshake_in_order (l : list Call) : Prop :=
  exists d c,
    sublist [requestScaleDevice_resolved d; connectToScale_resolved d c;
             startNotifications_resolved c] l.

End ScaleConnector.
Export ScaleConnector.

(** ** More of the JavaScript library *)

Module JSLibrary.

(** The names every plain object inherits from [Object.prototype]; reading one
    of them from an object literal gives a function (or, for [__proto__], the
    prototype object), never [undefined]. *)
Definition Object_prototype_names : list string :=
  ["constructor"; "__defineGetter__"; "__defineSetter__"; "hasOwnProperty";
   "__lookupGetter__"; "__lookupSetter__"; "isPrototypeOf";
   "propertyIsEnumerable"; "toString"; "valueOf"; "__proto__"; "toLocaleString"].

(** What reading [table[key]] from a [Record<string, number>] literal gives. *)
Inductive Property : Type :=
| own (x : float)
| inherited
| undefined.

Definition get (table : gmap string float) (key : string) : Property :=
  match table !! key with
  | Some x => own x
  | None => if bool_decide (key ∈ Object_prototype_names) then inherited else undefined
  end.

(** [Math.min] of two numbers: [NaN] if either is, and [-0] below [+0]. *)
Definition Math_min (x y : float) : float :=
  if PrimFloat.is_nan x || PrimFloat.is_nan y then NaN
  else if (x <? y)%float then x
  else if (x =? y)%float then (if PrimFloat.get_sign x then x else y)
  else y.

(** [Array.prototype.slice(start)] with one argument: a negative [start]
    counts from the end. *)
Definition slice {A : Type} (start : Z) (l : list A) : list A :=
  let len := Z.of_nat (length l) in
  let k := if start <? 0 then Z.max (len + start) 0 else Z.min start len in
  drop (Z.to_nat k) l.

End JSLibrary.
Export JSLibrary.

(** ** [app/utils/nutritionApi.ts]: percent of the daily value *)

Module PercentDV.

Definition dailyValues : gmap string float :=
  list_to_map [("calories", 2000%float); ("protein", 50%float);
               ("carbs", 300%float); ("fat", 65%float); ("fiber", 25%float);
               ("sodium", 2300%float); ("calcium", 1000%float);
               ("iron", 18%float); ("vitaminC", 90%float)].

(** [dv ? Math.round((amount / dv) * 100) : 0].  An inherited name reads as an
    object, which is truthy and converts to [NaN] in the division. *)
Definition calculatePercentDV (nutrient : string) (amount : float) : float :=
  match get dailyValues nutrient with
  | own dv => if truthy dv then Math_round (amount / dv * 100) else 0%float
  | inherited => Math_round (amount / NaN * 100)
  | undefined => 0%float
  end.

End PercentDV.
Export PercentDV.

(** ** [app/components/NutritionSummary.tsx]: totals and bars *)

Module SummaryView.

(** [NutritionSummary] of [app/types/scale.ts]. *)
Record NutritionSummary : Type := {
  totalCalories : float;
  totalProtein : float;
  totalCarbs : float;
  totalFat : float;
  totalFiber : float;
  ingredients : list NutritionData;
}.

Definition no_ingredients : NutritionSummary :=
  {| totalCalories := 0; totalProtein := 0; totalCarbs := 0; totalFat := 0;
     totalFiber := 0; ingredients := [] |}.

(** The callback of [ingredients.reduce]. *)
Definition add_ingredient (acc : NutritionSummary) (ingredient : NutritionData)
  : NutritionSummary :=
  {| totalCalories := (totalCalories acc + calories ingredient)%float;
     totalProtein := (totalProtein acc + protein ingredient)%float;
     totalCarbs := (totalCarbs acc + carbs ingredient)%float;
     totalFat := (totalFat acc + fat ingredient)%float;
     totalFiber := (totalFiber acc + or_default (fiber ingredient) 0)%float;
     ingredients := ingredients acc ++ [ingredient] |}.

Definition summary (l : list NutritionData) : NutritionSummary :=
  foldl add_ingredient no_ingredients l.

Record NutrientBar : Type := {
  name : string;
  value : float;
  unit : string;
  percentDV : float;
  color : string;
}.

Definition nutrientBars (s : NutritionSummary) : list NutrientBar :=
  [ {| name := "Calories"; value := totalCalories s; unit := "kcal";
       percentDV := calculatePercentDV "calories" (totalCalories s);
       color := "bg-red-500" |};
    {| name := "Protein"; value := totalProtein s; unit := "g";
       percentDV := calculatePercentDV "protein" (totalProtein s);
       color := "bg-blue-500" |};
    {| name := "Carbs"; value := totalCarbs s; unit := "g";
       percentDV := calculatePercentDV "carbs" (totalCarbs s);
       color := "bg-yellow-500" |};
    {| name := "Fat"; value := totalFat s; unit := "g";
       percentDV := calculatePercentDV "fat" (totalFat s);
       color := "bg-purple-500" |};
    {| name := "Fiber"; value := totalFiber s; unit := "g";
       percentDV := calculatePercentDV "fiber" (totalFiber s);
       color := "bg-green-500" |} ].

(** [newAnimatedBars[bar.name] = Math.min(bar.percentDV, 100)]. *)
Definition animatedBar (bar : NutrientBar) : float := Math_min (percentDV bar) 100.

(** The number in [width: `${animatedBars[bar.name] || 0}%`], once the timer
    has stored the bars. *)
Definition barWidth (bar : NutrientBar) : float :=
  or_default (Some (animatedBar bar)) 0.

End SummaryView.

(** ** The ingredient list: the route component and the storage helpers *)

Module Ingredients.

Definition MAX_STORED_INGREDIENTS : Z := 10.
Definition STORAGE_KEY : string := "scale-ingredients".

(** The updater that [handleIngredientConfirm] passes to [setIngredients]:
    [[...prev, nutritionData].slice(-10)]. *)
Definition confirm_update {A : Type} (prev : list A) (nutritionData : A) : list A :=
  slice (-10) (prev ++ [nutritionData]).

(** [handleIngredientConfirm], from the resolution of [getNutritionData] on:
    the list the next render sees. *)
Definition handleIngredientConfirm
    (getMockNutritionData : string -> BaseData) (ingredientName : string)
    (reading : ScaleReading) (prev : list NutritionData) : list NutritionData :=
  confirm_update prev
    (getNutritionData getMockNutritionData ingredientName (weight reading)
       (unit_string (ScaleTypes.unit reading))).

(** [localStorage]: the stored items, and whether the browser refuses access
    (every method then throws). *)
Record LocalStorage : Type := {
  items : gmap string string;
  blocked : bool;
}.

Definition getItem (ls : LocalStorage) (key : string) : result (option string) :=
  if blocked ls then Throw (Error "SecurityError") else Ok (items ls !! key).

(** [fits] tells whether the quota admits the new value. *)
Definition setItem (ls : LocalStorage) (key value : string) (fits : bool)
  : result LocalStorage :=
  if blocked ls then Throw (Error "SecurityError")
  else if fits then Ok {| items := <[key := value]> (items ls); blocked := false |}
  else Throw (Error "QuotaExceededError").

Definition removeItem (ls : LocalStorage) (key : string) : result LocalStorage :=
  if blocked ls then Throw (Error "SecurityError")
  else Ok {| items := delete key (items ls); blocked := false |}.

Section WithJSON.

(** The stored elements are only copied and serialised, so their type and
    [JSON.stringify] / [JSON.parse] stay abstract: [JSON_parse] throws on
    malformed text, answers [None] for a value that is not an array and
    [Some l] for an array. *)
Context {A : Type}.
Variable JSON_stringify : list A -> string.
Variable JSON_parse : string -> result (option (list A)).

Definition saveIngredients (l : list A) (fits : bool) (ls : LocalStorage)
  : LocalStorage :=
  let toStore := slice (- MAX_STORED_INGREDIENTS) l in
  try_catch (setItem ls STORAGE_KEY (JSON_stringify toStore) fits) ls.

Definition loadIngredients (ls : LocalStorage) : list A :=
  try_catch
    (stored ← getItem ls STORAGE_KEY;
     match stored with
     | None => Ok []
     | Some text =>
         if String.eqb text "" then Ok []
         else parsed ← JSON_parse text; Ok (default [] parsed)
     end)
    [].

Definition clearStoredIngredients (ls : LocalStorage) : LocalStorage :=
  try_catch (removeItem ls STORAGE_KEY) ls.

(** [addIngredient]: the returned list and the storage afterwards. *)
Definition addIngredient (newIngredient : A) (fits : bool) (ls : LocalStorage)
  : list A * LocalStorage :=
  let currentIngredients := loadIngredients ls in
  let updatedIngredients := currentIngredients ++ [newIngredient] in
  (slice (- MAX_STORED_INGREDIENTS) updatedIngredients,
   saveIngredients updatedIngredients fits ls).

End WithJSON.

End Ingredients.

(** ** Frames and sessions used as concrete inputs *)

Module Samples.
Import Byte.

(** Twelve bytes, sign byte [00] at offset 10 and [dc], the low byte of 1500
    ([0x05dc]), at offset 11; the high byte would be the thirteenth. *)
Definition frame_1500_positive : DataView :=
  [x00; x00; x00; x00; x00; x00; x00; x00; x00; x00; x00; xdc].

(** The same with sign byte [01]. *)
Definition frame_1500_negative : DataView :=
  [x00; x00; x00; x00; x00; x00; x00; x00; x00; x00; x01; xdc].

(** The two frames above with the high byte of the magnitude added. *)
Definition view13_1500_positive : DataView := frame_1500_positive ++ [x05].
Definition view13_1500_negative : DataView := frame_1500_negative ++ [x05].

(** Thirteen bytes with the little-endian magnitude 50000 ([0xc350]) at
    offset 11. *)
Definition view13_50000 : DataView :=
  [x00; x00; x00; x00; x00; x00; x00; x00; x00; x00; x00; x50; xc3].

(** Big-endian 5000 ([0x1388]) at offset 0, unit code 0, stability byte 1. *)
Definition frame_5000 : DataView :=
  [x13; x88; x00; x01; x00; x00; x00; x00; x00; x00; x00; x00].

(** Big-endian 10000 ([0x2710]) at offset 0, unit code 0, zeros after it. *)
Definition frame_10000 : DataView :=
  [x27; x10; x00; x00; x00; x00; x00; x00; x00; x00; x00; x00].

(** Big-endian 100 at offset 0, unit code 0, stability byte 1: 100 g, stable. *)
Definition frame_100g_stable : DataView :=
  [x00; x64; x00; x01; x00; x00; x00; x00; x00; x00; x00; x00].

(** An eight-byte heartbeat. *)
Definition frame_heartbeat : DataView :=
  [x00; x64; x00; x01; x00; x00; x00; x00].

Definition reading_100g (now : Z) : ScaleReading :=
  {| weight := 100; unit := g; isStable := true; timestamp := now |}.

(** Mount, click "Connect to Scale", the user picks device 1, the link and
    characteristic 2 are found, notifications start. *)
Definition connect_session : list Event :=
  [click;
   requestScaleDevice_settles 0 (inl 1%nat);
   connectToScale_settles 0 (characteristic_found 2%nat);
   startNotifications_settles 0 (inl ())].

Definition connected_world : World := run connect_session (initialWorld true).

(** After connecting, the scale sends the same stable frame twice. *)
Definition two_equal_stable_frames : list Event :=
  connect_session ++
  [characteristicvaluechanged 2%nat (Some frame_100g_stable) 1000;
   characteristicvaluechanged 2%nat (Some frame_100g_stable) 1200].

End Samples.
Export Samples.

(** ** Definitions used to state the properties *)

(** The reading [r] as it would have been built at time [t]. *)
Definition stamped (t : Z) (r : ScaleReading) : ScaleReading :=
  {| weight := weight r; unit := unit r; isStable := isStable r; timestamp := t |}.

Definition restamp (t : Z) (res : result (option ScaleReading))
  : result (option ScaleReading) :=
  match res with
  | Ok o => Ok (stamped t <$> o)
  | Throw e => Throw e
  end.

(** The fluid units, which [convertWeight]'s tables do not list. *)
Definition fluid (u : string) : Prop := u = "ml" \/ u = "fl oz".

(** An optional nutrient that is [undefined] or [NaN]. *)
Definition missing_or_NaN (v : option float) : Prop := v = None \/ v = Some NaN.

(** What a suspended run of [connectToScaleDevice] has already been through. *)
Definition pending_ok (l : list Call) (p : Pending) : Prop :=
  match p with
  | await_requestScaleDevice _ => True
  | await_connectToScale _ d => sublist [requestScaleDevice_resolved d] l
  | await_startNotifications _ d c =>
      sublist [requestScaleDevice_resolved d; connectToScale_resolved d c] l
  end.

(** The invariant behind the reachability of [connected]. *)
Definition handshake_inv (w : World) : Prop :=
  (connectionState (state w) = st_connected -> handshake_in_order (log w))
  /\ Forall (pending_ok (log w)) (pending w).

(** The byte before offset [k] is zero, or there is none. *)
Definition preceded_by_zero (data : DataView) (k : Z) : bool :=
  (k =? 0) || match byte_at data (k - 1) with Some 0 => true | _ => false end.

(** The last test of Method 2. *)
Definition weight_test (w : float) : bool := (0 <? w)%float && (w <=? 5000)%float.

(** What the arithmetic of Method 2 does with one raw magnitude, for either
    sign and either divisor; checked by evaluation for every magnitude the
    plausibility test lets through. *)
Definition raw_check (raw : Z) : bool :=
  PrimFloat.Leibniz.eqb (num 1 * num raw / num 10) (num raw / num 10)
  && PrimFloat.Leibniz.eqb (num 1 * num raw / num 1) (num raw / num 1)
  && weight_test (num raw / num 10)
  && Bool.eqb (weight_test (num raw / num 1)) (raw <=? 5000)
  && negb (weight_test (num (-1) * num raw / num 10))
  && negb (weight_test (num (-1) * num raw / num 1)).

(** A reading as the decoder lets it out. *)
Definition decoded_ok (r : ScaleReading) : Prop :=
  (0 <? weight r)%float = true /\ (weight r <=? 5000)%float = true
  /\ (ScaleTypes.unit r = g \/ ScaleTypes.unit r = oz
      \/ ScaleTypes.unit r = ml \/ ScaleTypes.unit r = fl_oz).

Definition reported_ok (c : Call) : Prop :=
  match c with
  | onStableReading_called r => decoded_ok r /\ isStable r = true
  | _ => True
  end.

(** The readings the connector holds or has reported all come out of the
    decoder, and the reported ones are stable. *)
Definition readings_inv (w : World) : Prop :=
  (forall r, currentReading (state w) = Some r -> decoded_ok r)
  /\ (forall r, lastStableReading (state w) = Some r ->
                decoded_ok r /\ isStable r = true)
  /\ Forall reported_ok (log w).

(** How a rejected step of the handshake leaves the connector: run [i] is
    gone, the state is [error] with the message of the rejection, and nothing
    was logged or registered. *)
Definition failed_with (e : Rejection) (i : nat) (w w' : World) : Prop :=
  connectionState (state w') = st_error
  /\ error (state w') = Some (message_of e)
  /\ pending w' = delete i (pending w)
  /\ log w' = log w
  /\ value_listeners w' = value_listeners w
  /\ disconnect_listeners w' = disconnect_listeners w.

(** A call of [connectToScaleDevice], by the button or directly. *)
Definition connect_call (ev : Event) : Prop :=
  ev = click \/ ev = call_connectToScaleDevice.

(** The one way a suspended run [p] comes to stand at position [j] other than
    having been suspended there (or one place further) before the event: a run
    waiting for the device is put there by a call of [connectToScaleDevice], a
    run waiting for [connectToScale] by the resolution of the device request of
    the run at [j], and a run waiting for [startNotifications] by the
    resolution of [connectToScale] of the run at [j]. *)
Definition run_created (ev : Event) (w : World) (j : nat) (p : Pending) : Prop :=
  match p with
  | await_requestScaleDevice r =>
      connect_call ev /\ r = render w /\ j = length (pending w)
  | await_connectToScale r d =>
      ev = requestScaleDevice_settles j (inl d)
      /\ pending w !! j = Some (await_requestScaleDevice r)
      /\ log (step ev w) = log w ++ [requestScaleDevice_resolved d]
  | await_startNotifications r d c =>
      ev = connectToScale_settles j (characteristic_found c)
      /\ pending w !! j = Some (await_connectToScale r d)
      /\ log (step ev w) = log w ++ [connectToScale_resolved d c]
  end.

(** The handshake invariant counted from a point in the past: [base] is the
    log at that point, and only what was logged since counts. *)
Definition handshake_since (base : list Call) (w : World) : Prop :=
  exists l,
    log w = base ++ l
    /\ (connectionState (state w) = st_connected -> handshake_in_order l)
    /\ Forall (pending_ok l) (pending w).

(** * Properties *)

(** ** IEEE 754 facts *)

Lemma mul_nan_r (x : float) : (x * nan)%float = nan.
Proof.
  rewrite <- (SF2Prim_Prim2SF (x * nan)), FloatAxioms.mul_spec.
  change (Prim2SF nan) with S754_nan.
  destruct (Prim2SF x); reflexivity.
Qed.

Lemma mul_nan_l (x : float) : (nan * x)%float = nan.
Proof.
  rewrite <- (SF2Prim_Prim2SF (nan * x)), FloatAxioms.mul_spec.
  change (Prim2SF nan) with S754_nan.
  destruct (Prim2SF x); reflexivity.
Qed.

(** ** The [DataView] getters *)

Lemma byte_at_in_range (data : DataView) (i : Z) :
  0 <= i < byteLength data -> exists b, byte_at data i = Some b /\ 0 <= b < 256.
Proof.
  intros Hi. unfold byte_at, byteLength in *.
  destruct (data !! Z.to_nat i) as [b|] eqn:E.
  - exists (Z.of_N (Byte.to_N b)). split; [reflexivity|].
    pose proof (Byte.to_N_bounded b). lia.
  - apply lookup_ge_None in E. lia.
Qed.

Lemma getUint8_in_range (data : DataView) (i : Z) :
  0 <= i < byteLength data -> exists b, getUint8 data i = Ok b /\ 0 <= b < 256.
Proof.
  intros Hi. unfold getUint8.
  destruct (byte_at_in_range data i Hi) as (b & -> & Hb).
  replace ((i <? 0) || (byteLength data <? i + 1)) with false by lia.
  eauto.
Qed.

Lemma getUint16_Ok_range (data : DataView) (i : Z) (le : bool) (v : Z) :
  getUint16 data i le = Ok v -> 0 <= i /\ i + 2 <= byteLength data.
Proof.
  unfold getUint16.
  destruct ((i <? 0) || (byteLength data <? i + 2)) eqn:E; [discriminate|].
  intros _. lia.
Qed.

Lemma getUint16_out_of_range (data : DataView) (i : Z) (le : bool) :
  byteLength data < i + 2 -> getUint16 data i le = Throw RangeError.
Proof.
  intros Hi. unfold getUint16.
  replace ((i <? 0) || (byteLength data <? i + 2)) with true by lia.
  reflexivity.
Qed.

(** ** Method 1 on a twelve-byte frame *)

(** The 16-bit read at offset 11 needs thirteen bytes: on a twelve-byte frame
    the body of Method 1 always ends in the [RangeError] and the [catch]. *)
Lemma method1_try_12 (data : DataView) (now : Z) :
  byteLength data = 12 -> method1_try data now = Throw RangeError.
Proof.
  intros Hlen. unfold method1_try.
  destruct (getUint8_in_range data 10) as (b & -> & _); [lia|].
  rewrite getUint16_out_of_range by lia. reflexivity.
Qed.

Lemma method1_12 (data : DataView) (now : Z) :
  byteLength data = 12 -> method1 data now = None.
Proof.
  intros Hlen. unfold method1. rewrite method1_try_12 by assumption.
  destruct (byteLength data >=? 12); reflexivity.
Qed.

(** [parseScaleData] on a twelve-byte frame is the scan of Method 2. *)
Lemma parseScaleData_12 (data : DataView) (now : Z) :
  byteLength data = 12 -> parseScaleData data now = Ok (method2 data now).
Proof.
  intros Hlen. unfold parseScaleData, parseScaleData_body.
  rewrite method1_12 by assumption. rewrite Hlen. cbn.
  destruct (method2 data now); reflexivity.
Qed.

Lemma parseScaleData_not_12 (data : DataView) (now : Z) :
  byteLength data <> 12 -> parseScaleData data now = Ok None.
Proof.
  intros Hlen. unfold parseScaleData, parseScaleData_body.
  destruct (byteLength data <? 3); [reflexivity|].
  destruct (byteLength data =? 8); [reflexivity|].
  destruct (Z.eqb_spec (byteLength data) 12); [contradiction|reflexivity].
Qed.

(** ** Method 2 *)

Lemma unit_of_code_range (code : Z) :
  unit_of_code code = g \/ unit_of_code code = oz \/
  unit_of_code code = ml \/ unit_of_code code = fl_oz.
Proof.
  unfold unit_of_code, UNIT_MAP.
  destruct code as [|p|p]; cbn; auto.
  destruct p as [[[|?|]|[|?|]|]|[[|?|]|[|?|]|]|]; cbn; auto.
Qed.

(** A reading that Method 2 builds at some offset passed its last test. *)
Lemma method2_try_Some (data : DataView) (now offset : Z) (r : ScaleReading) :
  method2_try data now offset = Ok (Some r) ->
  (0 <? weight r)%float = true /\ (weight r <=? 5000)%float = true
  /\ (exists code, unit r = unit_of_code code) /\ timestamp r = now.
Proof.
  unfold method2_try.
  destruct (getUint16 data offset false) as [rawWeight|]; [|discriminate]. cbn.
  destruct (if offset + 2 <? byteLength data then _ else _) as [nextByte|];
    [|discriminate]. cbn.
  destruct (method2_plausible rawWeight nextByte); [|discriminate].
  destruct (if offset >? 0 then _ else _) as [sign|]; [|discriminate]. cbn.
  destruct (if offset + 3 <? byteLength data then _ else _) as [stable|];
    [|discriminate]. cbn.
  destruct (_ && _) eqn:E; [|discriminate].
  intros [= <-]. cbn. apply andb_true_iff in E as [-> ->]. eauto.
Qed.

Lemma method2_from_Some (data : DataView) (now : Z) (trips : nat) :
  forall offset r,
    method2_from data now offset trips = Some r ->
    exists k, offset <= k < offset + Z.of_nat trips
              /\ method2_try data now k = Ok (Some r).
Proof.
  induction trips as [|trips IH]; intros offset r; cbn [method2_from].
  - discriminate.
  - destruct (method2_try data now offset) as [[r'|]|] eqn:E; cbn.
    + intros [= <-]. exists offset. split; [lia|assumption].
    + intros H. destruct (IH _ _ H) as (k & Hk & Hr). exists k. split; [lia|assumption].
    + intros H. destruct (IH _ _ H) as (k & Hk & Hr). exists k. split; [lia|assumption].
Qed.

Lemma method2_from_None (data : DataView) (now : Z) (trips : nat) :
  forall offset,
    (forall k, offset <= k < offset + Z.of_nat trips ->
               try_catch (method2_try data now k) None = None) ->
    method2_from data now offset trips = None.
Proof.
  induction trips as [|trips IH]; intros offset Hall; cbn [method2_from].
  - reflexivity.
  - rewrite Hall by lia. apply IH. intros k Hk. apply Hall. lia.
Qed.

(** ** The clock only reaches the [timestamp] field *)

Lemma method1_restamp (data : DataView) (t1 t2 : Z) :
  method1 data t2 = stamped t2 <$> method1 data t1.
Proof.
  unfold method1, method1_try.
  destruct (byteLength data >=? 12); [|reflexivity].
  destruct (getUint8 data 10) as [b10|]; [|reflexivity]. cbn.
  destruct (getUint16 data 11 true) as [rawWeight|]; [|reflexivity]. cbn.
  destruct (if byteLength data >? 14 then _ else _) as [unitCode|]; [|reflexivity].
  cbn. destruct (method1_accepts rawWeight); reflexivity.
Qed.

Lemma method2_try_restamp (data : DataView) (t1 t2 offset : Z) :
  try_catch (method2_try data t2 offset) None
  = stamped t2 <$> try_catch (method2_try data t1 offset) None.
Proof.
  unfold method2_try.
  destruct (getUint16 data offset false) as [rawWeight|]; [|reflexivity]. cbn.
  destruct (if offset + 2 <? byteLength data then _ else _) as [nextByte|];
    [|reflexivity]. cbn.
  destruct (method2_plausible rawWeight nextByte); [|reflexivity].
  destruct (if offset >? 0 then _ else _) as [sign|]; [|reflexivity]. cbn.
  destruct (if offset + 3 <? byteLength data then _ else _) as [stable|];
    [|reflexivity]. cbn.
  destruct (_ && _); reflexivity.
Qed.

Lemma method2_from_restamp (data : DataView) (t1 t2 : Z) (trips : nat) :
  forall offset,
    method2_from data t2 offset trips = stamped t2 <$> method2_from data t1 offset trips.
Proof.
  induction trips as [|trips IH]; intros offset; cbn [method2_from]; [reflexivity|].
  rewrite (method2_try_restamp data t1 t2 offset).
  destruct (try_catch (method2_try data t1 offset) None); cbn; [reflexivity|].
  apply IH.
Qed.

(** ** The frame decoder *)

(** C1 (as the code behaves).  The twelve-byte frames of the Strategy A
    acceptance test, with sign byte [00] or [01] at offset 10 and the magnitude
    1500 starting at offset 11, are not decoded: Method 1 ends in a
    [RangeError] on each of them, the scan finds nothing, and the result is
    [null].  Only a view that holds the thirteenth byte gives the readings the
    test expects, 1500 g and -1500 g, and [parseScaleData] never hands such a
    view to Method 1. *)
Theorem strategy_a_frame_is_dropped :
  parseScaleData frame_1500_positive 0 = Ok None
  /\ parseScaleData frame_1500_negative 0 = Ok None
  /\ method1_try frame_1500_positive 0 = Throw RangeError
  /\ method1_try frame_1500_negative 0 = Throw RangeError
  /\ method1 view13_1500_positive 0
     = Some {| weight := 1500; unit := g; isStable := true; timestamp := 0 |}
  /\ method1 view13_1500_negative 0
     = Some {| weight := -1500; unit := g; isStable := true; timestamp := 0 |}
  /\ parseScaleData view13_1500_positive 0 = Ok None.
Proof. repeat split; vm_compute; reflexivity. Qed.

(** C2.  [parseScaleData] never throws: for every byte sequence and every
    clock value it completes with a reading or with [null], although the
    getters it calls do throw (Method 1 does on every twelve-byte frame); and
    whatever is not a twelve-byte frame completes with [null]. *)
Theorem parseScaleData_never_throws (data : DataView) (now : Z) :
  exists o : option ScaleReading,
    parseScaleData data now = Ok o
    /\ (o = None \/ (byteLength data = 12 /\ method2 data now = o
                     /\ method1_try data now = Throw RangeError)).
Proof.
  destruct (Z.eq_dec (byteLength data) 12) as [Hlen|Hlen].
  - exists (method2 data now). split; [apply parseScaleData_12; assumption|].
    right. split; [assumption|]. split; [reflexivity|].
    apply method1_try_12; assumption.
  - exists None. split; [apply parseScaleData_not_12; assumption|]. left; reflexivity.
Qed.

(** C3, counterexample.  A frame whose Method 2 weight is exactly 5000 (raw
    value 5000, unit code 0, positive sign) is decoded to 5000 g; it is not
    rejected. *)
Lemma weight_5000_is_accepted :
  parseScaleData frame_5000 0
  = Ok (Some {| weight := 5000; unit := g; isStable := true; timestamp := 0 |}).
Proof. vm_compute. reflexivity. Qed.

(** C3, amended.  The tests on the raw magnitudes are open at the top: Method 1
    rejects a raw magnitude of exactly 50000, and Method 2 drops an offset
    whose raw value is exactly 10000.  The test on the resulting weight of
    Method 2 is closed: an offset with raw value 5000, unit code 0 and a zero
    byte (or nothing) before it yields the reading 5000 g.  A twelve-byte frame
    all of whose offsets 0..8 are dropped decodes to [null]. *)
Theorem magnitude_bounds :
  (forall data now, getUint16 data 11 true = Ok 50000 -> method1 data now = None)
  /\ (forall data now offset,
        getUint16 data offset false = Ok 10000 ->
        try_catch (method2_try data now offset) None = None)
  /\ (forall data now offset,
        getUint16 data offset false = Ok 5000 ->
        getUint8 data (offset + 2) = Ok 0 ->
        (0 < offset -> getUint8 data (offset - 1) = Ok 0) ->
        exists stable,
          method2_try data now offset
          = Ok (Some {| weight := 5000; unit := g; isStable := stable;
                        timestamp := now |}))
  /\ (forall data now,
        byteLength data = 12 ->
        (forall offset, 0 <= offset <= 8 ->
                        try_catch (method2_try data now offset) None = None) ->
        parseScaleData data now = Ok None).
Proof.
  split; [|split; [|split]].
  - intros data now H. unfold method1, method1_try. rewrite H.
    destruct (byteLength data >=? 12); [|reflexivity].
    destruct (getUint8 data 10); [|reflexivity]. cbn.
    destruct (if byteLength data >? 14 then _ else _); reflexivity.
  - intros data now offset H. unfold method2_try. rewrite H. cbn.
    destruct (if offset + 2 <? byteLength data then _ else _); reflexivity.
  - intros data now offset H16 H8 Hsign.
    destruct (getUint16_Ok_range _ _ _ _ H16) as [Hlo Hhi].
    unfold method2_try. rewrite H16, H8. cbn.
    replace (if offset + 2 <? byteLength data then Ok 0 else Ok 0)
      with (@Ok Z 0) by (destruct (offset + 2 <? byteLength data); reflexivity).
    cbn.
    assert ((if offset >? 0
             then getUint8 data (offset - 1) ≫= (fun b => Ok (if b =? 0 then 1 else -1))
             else Ok 1) = Ok 1) as ->.
    { destruct (Z.gtb_spec offset 0); [|reflexivity].
      rewrite Hsign by lia. reflexivity. }
    cbn.
    destruct (Z.ltb_spec (offset + 3) (byteLength data)).
    + destruct (getUint8_in_range data (offset + 3)) as (b & -> & _); [lia|].
      cbn. eexists. reflexivity.
    + cbn. eexists. reflexivity.
  - intros data now Hlen Hall.
    rewrite parseScaleData_12 by assumption. f_equal.
    unfold method2. apply method2_from_None.
    intros k Hk. apply Hall. rewrite Hlen in Hk. cbn in Hk. lia.
Qed.

Lemma magnitude_bounds_witness :
  method1 view13_50000 0 = None
  /\ try_catch (method2_try frame_10000 0 0) None = None
  /\ (exists stable,
        method2_try frame_5000 0 0
        = Ok (Some {| weight := 5000; unit := g; isStable := stable; timestamp := 0 |}))
  /\ parseScaleData frame_10000 0 = Ok None.
Proof.
  destruct magnitude_bounds as (A & B & C & D).
  split; [|split; [|split]].
  - apply A. reflexivity.
  - apply B. reflexivity.
  - apply C; [reflexivity|reflexivity|intros H; inversion H].
  - apply D; [reflexivity|].
    intros offset Hoff.
    assert (offset = 0 \/ offset = 1 \/ offset = 2 \/ offset = 3 \/ offset = 4
            \/ offset = 5 \/ offset = 6 \/ offset = 7 \/ offset = 8) as Hcases by lia.
    repeat destruct Hcases as [->|Hcases]; try subst offset; reflexivity.
Defined.

(** C4.  Every frame whose length is not 12 (heartbeats of length 8, frames
    shorter than 3, and any other length) decodes to [null]. *)
Theorem other_lengths_decode_to_null (data : DataView) (now : Z) :
  length data <> 12%nat -> parseScaleData data now = Ok None.
Proof.
  intros Hlen. apply parseScaleData_not_12. unfold byteLength. lia.
Qed.

Lemma other_lengths_decode_to_null_witness :
  parseScaleData frame_heartbeat 0 = Ok None.
Proof.
  apply (other_lengths_decode_to_null frame_heartbeat 0). cbn. lia.
Defined.

(** C5, counterexample.  The same frame decoded at two different clock values
    gives two readings that differ in [timestamp]. *)
Lemma decoding_twice_differs_in_timestamp :
  parseScaleData frame_100g_stable 1000 <> parseScaleData frame_100g_stable 1200.
Proof. vm_compute. intros H. discriminate H. Qed.

(** C5, amended.  Decoding is a function of the bytes and of the clock: the
    same bytes decoded at another time give [null] again, or the same weight,
    unit and stability with the other time as [timestamp]. *)
Theorem decoding_is_deterministic_up_to_timestamp (data : DataView) (t1 t2 : Z) :
  parseScaleData data t2 = restamp t2 (parseScaleData data t1).
Proof.
  unfold parseScaleData, parseScaleData_body.
  destruct (byteLength data <? 3); [reflexivity|].
  destruct (byteLength data =? 8); [reflexivity|].
  destruct (byteLength data =? 12); [|reflexivity].
  rewrite (method1_restamp data t1 t2).
  destruct (method1 data t1); [reflexivity|]. cbn.
  unfold method2. rewrite (method2_from_restamp data t1 t2).
  destruct (method2_from data t1 0 _); reflexivity.
Qed.

(** C9.  Whatever [parseScaleData] returns as a reading comes from the scan of
    Method 2 (Method 1 fails on every twelve-byte frame): its weight is
    greater than 0 and at most 5000, and its unit is "g", "oz", "ml" or
    "fl oz", never "lb" or "kg". *)
Theorem decoded_reading_invariant (data : DataView) (now : Z) (r : ScaleReading) :
  parseScaleData data now = Ok (Some r) ->
  (0 <? weight r)%float = true
  /\ (weight r <=? 5000)%float = true
  /\ (unit r = g \/ unit r = oz \/ unit r = ml \/ unit r = fl_oz)
  /\ unit r <> lb /\ unit r <> kg
  /\ byteLength data = 12
  /\ method1 data now = None
  /\ method2 data now = Some r.
Proof.
  intros H.
  destruct (Z.eq_dec (byteLength data) 12) as [Hlen|Hlen];
    [|rewrite parseScaleData_not_12 in H by assumption; discriminate].
  rewrite parseScaleData_12 in H by assumption. injection H as H.
  pose proof H as H2. unfold method2 in H2.
  apply method2_from_Some in H2 as (k & _ & Hk).
  apply method2_try_Some in Hk as (Hpos & Hle & (code & Hunit) & _).
  pose proof (unit_of_code_range code) as Hr. rewrite <- Hunit in Hr.
  split; [assumption|]. split; [assumption|]. split; [assumption|].
  split; [intros E; rewrite E in Hr; intuition discriminate|].
  split; [intros E; rewrite E in Hr; intuition discriminate|].
  split; [assumption|]. split; [apply method1_12; assumption|assumption].
Qed.

Lemma decoded_reading_invariant_witness :
  (0 <? 100)%float = true
  /\ (100 <=? 5000)%float = true
  /\ (g = g \/ g = oz \/ g = ml \/ g = fl_oz)
  /\ g <> lb /\ g <> kg
  /\ byteLength frame_100g_stable = 12
  /\ method1 frame_100g_stable 7 = None
  /\ method2 frame_100g_stable 7 = Some (reading_100g 7).
Proof.
  apply (decoded_reading_invariant frame_100g_stable 7 (reading_100g 7)).
  reflexivity.
Defined.

(** ** Unit conversion and the nutrition lookup *)

Lemma toGrams_fluid (u : string) : fluid u -> toNumber (toGrams !! u) = NaN.
Proof. intros [-> | ->]; reflexivity. Qed.

Lemma fromGrams_fluid (u : string) : fluid u -> toNumber (fromGrams !! u) = NaN.
Proof. intros [-> | ->]; reflexivity. Qed.

Lemma convertWeight_fluid (w : float) (fromUnit toUnit : string) :
  fromUnit <> toUnit -> fluid fromUnit \/ fluid toUnit ->
  convertWeight w fromUnit toUnit = NaN.
Proof.
  intros Hne Hfluid. unfold convertWeight.
  apply String.eqb_neq in Hne as ->.
  destruct Hfluid as [H | H].
  - rewrite (toGrams_fluid _ H). unfold NaN. rewrite mul_nan_r. apply mul_nan_l.
  - rewrite (fromGrams_fluid _ H). apply mul_nan_r.
Qed.

Lemma Math_round_NaN : Math_round NaN = NaN.
Proof. reflexivity. Qed.

Lemma round1_NaN (x : float) : round1 x NaN = NaN.
Proof. unfold round1, NaN. rewrite mul_nan_r, mul_nan_l. reflexivity. Qed.

Lemma optional_nutrient_NaN (v : option float) :
  missing_or_NaN (optional_nutrient v NaN).
Proof.
  unfold optional_nutrient, missing_or_NaN.
  destruct v as [x|]; [|left; reflexivity].
  destruct (truthy x); [right|left; reflexivity].
  rewrite round1_NaN. reflexivity.
Qed.

(** C10.  [convertWeight] returns the weight unchanged when the two units are
    the same string; when they differ and one of them is "ml" or "fl oz" it
    returns [NaN], because neither table has an entry for the fluid units; and
    [getNutritionData], called with such a unit, works from a [NaN] gram
    weight: the weight, the calories, protein, carbohydrates and fat it reports
    are [NaN], and every optional nutrient is [undefined] or [NaN], whatever
    the lookup finds for the ingredient. *)
Theorem convertWeight_has_no_fluid_units :
  (forall w u, convertWeight w u u = w)
  /\ (forall w fromUnit toUnit,
        fromUnit <> toUnit -> fluid fromUnit \/ fluid toUnit ->
        convertWeight w fromUnit toUnit = NaN)
  /\ (forall getMockNutritionData ingredient w u,
        fluid u ->
        let r := getNutritionData getMockNutritionData ingredient w u in
        convertWeight w u "g" = NaN
        /\ nd_weight r = NaN
        /\ calories r = NaN /\ protein r = NaN /\ carbs r = NaN /\ fat r = NaN
        /\ missing_or_NaN (fiber r) /\ missing_or_NaN (sugar r)
        /\ missing_or_NaN (sodium r) /\ missing_or_NaN (calcium r)
        /\ missing_or_NaN (iron r) /\ missing_or_NaN (vitaminC r)).
Proof.
  split; [|split].
  - intros w u. unfold convertWeight. rewrite String.eqb_refl. reflexivity.
  - apply convertWeight_fluid.
  - intros lookup ingredient w u Hu r.
    assert (convertWeight w u "g" = NaN) as Hg.
    { apply convertWeight_fluid; [|left; assumption].
      destruct Hu as [-> | ->]; discriminate. }
    subst r. unfold getNutritionData, fetchUSDANutrition. cbn [try_catch].
    rewrite Hg. unfold calculateNutritionForWeight.
    change (NaN / 100)%float with NaN. cbn [nd_weight calories protein carbs fat
      fiber sugar sodium calcium iron vitaminC].
    rewrite !round1_NaN. unfold NaN at 2. rewrite mul_nan_r.
    repeat split; try reflexivity; apply optional_nutrient_NaN.
Qed.

Lemma convertWeight_has_no_fluid_units_witness :
  convertWeight 250 "ml" "g" = NaN
  /\ convertWeight 250 "g" "fl oz" = NaN
  /\ nd_weight (getNutritionData (fun _ => Build_BaseData (Some 42%float) None None None
                                             None None None None None None)
                                 "milk" 250 "ml") = NaN.
Proof.
  destruct convertWeight_has_no_fluid_units as (_ & B & C).
  split; [|split].
  - apply B; [discriminate|left; left; reflexivity].
  - apply B; [discriminate|right; right; reflexivity].
  - apply C. left; reflexivity.
Defined.

(** ** The connector: what each function leaves alone *)

Lemma pending_ok_mono (l l' : list Call) (p : Pending) :
  l `prefix_of` l' -> pending_ok l p -> pending_ok l' p.
Proof.
  intros [k ->]. destruct p; cbn; [trivial | apply sublist_inserts_r ..].
Qed.

Lemma handshake_in_order_mono (l l' : list Call) :
  l `prefix_of` l' -> handshake_in_order l -> handshake_in_order l'.
Proof.
  intros [k ->] (d & c & H). exists d, c. apply sublist_inserts_r, H.
Qed.

(** A step that only adds to the log, suspends no new run and does not enter
    [connected] keeps the invariant. *)
Lemma handshake_inv_mono (w w' : World) :
  handshake_inv w ->
  log w `prefix_of` log w' ->
  (forall p, p ∈ pending w' -> p ∈ pending w) ->
  (connectionState (state w') = st_connected ->
   connectionState (state w) = st_connected) ->
  handshake_inv w'.
Proof.
  intros [Hc Hp] Hlog Hpend Hst. split.
  - intros H. eapply handshake_in_order_mono; eauto.
  - apply Forall_forall. intros p Hin.
    eapply pending_ok_mono; [eassumption|].
    rewrite Forall_forall in Hp. auto.
Qed.

Lemma handleCharacteristicValueChanged_frame (r : Render) (value : option DataView)
    (now : Z) (w : World) :
  let w' := handleCharacteristicValueChanged r value now w in
  connectionState (state w') = connectionState (state w)
  /\ pending w' = pending w
  /\ log w `prefix_of` log w'
  /\ teardown_calls w' = teardown_calls w.
Proof.
  unfold handleCharacteristicValueChanged.
  destruct value as [data|]; [|cbn; repeat split; reflexivity].
  destruct (parseScaleData data now) as [[reading|]|];
    [|cbn; repeat split; reflexivity ..].
  destruct (isStable reading && _); cbn.
  - repeat split; try reflexivity.
    + eexists. reflexivity.
    + unfold teardown_calls. cbn. rewrite List.filter_app. cbn. apply app_nil_r.
  - repeat split; reflexivity.
Qed.

Lemma dispatch_value_frame (c : BluetoothRemoteGATTCharacteristic)
    (value : option DataView) (now : Z) (w : World) :
  let w' := dispatch_value c value now w in
  connectionState (state w') = connectionState (state w)
  /\ pending w' = pending w
  /\ log w `prefix_of` log w'
  /\ teardown_calls w' = teardown_calls w.
Proof.
  unfold dispatch_value. generalize (value_listeners w) as ls.
  intros ls. revert w. induction ls as [|l ls IH]; intros w; cbn [foldl].
  - repeat split; reflexivity.
  - destruct (bool_decide (l.1 = c)); [|apply IH].
    destruct (handleCharacteristicValueChanged_frame l.2 value now w)
      as (H1 & H2 & H3 & H4).
    destruct (IH (handleCharacteristicValueChanged l.2 value now w))
      as (I1 & I2 & I3 & I4).
    cbn zeta. rewrite I1, I2, I4, H1, H2, H4.
    repeat split; try reflexivity. etrans; eassumption.
Qed.

Lemma gattserverdisconnected_listeners_frame (d : BluetoothDevice)
    (ls : list BluetoothDevice) (w : World) :
  let w' := foldl (fun w d' => if bool_decide (d' = d)
                                then on_gattserverdisconnected w else w) w ls in
  (connectionState (state w') = connectionState (state w)
   \/ connectionState (state w') = st_disconnected)
  /\ pending w' = pending w
  /\ log w' = log w
  /\ value_listeners w' = value_listeners w.
Proof.
  revert w. induction ls as [|d' ls IH]; intros w; cbn [foldl].
  - repeat split; try reflexivity. left; reflexivity.
  - destruct (bool_decide (d' = d)); [|apply IH].
    destruct (IH (on_gattserverdisconnected w)) as (I1 & I2 & I3 & I4).
    cbn zeta. rewrite I2, I3, I4. repeat split; try reflexivity.
    right. destruct I1 as [-> | ->]; reflexivity.
Qed.

Lemma dispatch_disconnected_frame (d : BluetoothDevice) (w : World) :
  let w' := dispatch_disconnected d w in
  (connectionState (state w') = connectionState (state w)
   \/ connectionState (state w') = st_disconnected)
  /\ pending w' = pending w
  /\ log w' = log w
  /\ value_listeners w' = value_listeners w.
Proof.
  unfold dispatch_disconnected.
  apply (gattserverdisconnected_listeners_frame d (disconnect_listeners w)
           (set_gatt_connected (gatt_connected w ∖ {[d]}) w)).
Qed.

Lemma disconnect_frame (r : Render) (w : World) :
  let w' := disconnect r w in
  connectionState (state w') = st_disconnected
  /\ device (state w') = None
  /\ characteristic (state w') = None
  /\ pending w' = pending w
  /\ log w `prefix_of` log w'.
Proof.
  unfold disconnect.
  destruct (characteristic (r_state r)) as [c|], (device (r_state r)) as [d|]; cbn;
    try destruct (bool_decide (d ∈ gatt_connected _)); cbn;
    repeat split; try reflexivity;
    first [ by eexists | by (exists []; rewrite app_nil_r)
          | by (rewrite <- app_assoc; eexists) ].
Qed.

(** ** The connector: the handshake invariant *)

Lemma handshake_inv_connectToScaleDevice (r : Render) (w : World) :
  handshake_inv w -> handshake_inv (connectToScaleDevice r w).
Proof.
  intros [Hc Hp]. unfold connectToScaleDevice.
  destruct (bluetoothSupported w); cbn; split; cbn; try discriminate; try assumption.
  apply Forall_app. split; [assumption|]. repeat constructor.
Qed.

Lemma handshake_inv_disconnect (r : Render) (w : World) :
  handshake_inv w -> handshake_inv (disconnect r w).
Proof.
  intros H. destruct (disconnect_frame r w) as (Hs & _ & _ & Hp & Hl).
  apply (handshake_inv_mono w); [assumption|assumption| |].
  - rewrite Hp. auto.
  - rewrite Hs. discriminate.
Qed.

Lemma handshake_inv_connect_failed (e : Rejection) (i : nat) (w w' : World) :
  handshake_inv w -> log w' = log w -> pending w' = pending w ->
  handshake_inv (connect_failed e (set_pending (delete i (pending w')) w')).
Proof.
  intros [Hc Hp] Hl Hpend. split; cbn; [discriminate|].
  rewrite Hl, Hpend. apply Forall_delete, Hp.
Qed.

Lemma handshake_inv_requestScaleDevice_settled (i : nat)
    (outcome : BluetoothDevice + Rejection) (w : World) :
  handshake_inv w -> handshake_inv (requestScaleDevice_settled i outcome w).
Proof.
  intros H. unfold requestScaleDevice_settled.
  destruct (pending w !! i) as [[r|r d|r d c]|] eqn:E; try assumption.
  destruct outcome as [scaleDevice|e].
  - destruct H as [Hc Hp]. split; cbn.
    + intros Hst. eapply handshake_in_order_mono; [|apply Hc, Hst].
      by eexists.
    + apply Forall_insert.
      * eapply Forall_impl; [exact Hp|]. intros p. apply pending_ok_mono. by eexists.
      * cbn. apply sublist_inserts_l. reflexivity.
  - apply (handshake_inv_connect_failed e i w w); [assumption|reflexivity ..].
Qed.

Lemma handshake_inv_connectToScale_settled (i : nat) (outcome : ConnectOutcome)
    (w : World) :
  handshake_inv w -> handshake_inv (connectToScale_settled i outcome w).
Proof.
  intros H. unfold connectToScale_settled.
  destruct (pending w !! i) as [[r|r d|r d c]|] eqn:E; try assumption.
  cbn zeta.
  destruct outcome as [e|e|e|char];
    [ apply (handshake_inv_connect_failed e i w w); [assumption|reflexivity ..]
    | apply (handshake_inv_connect_failed e i w
               (set_gatt_connected ({[d]} ∪ gatt_connected w) w));
      [assumption|reflexivity ..] ..
    | ].
  destruct H as [Hc Hp]. split; cbn.
  - intros Hst. eapply handshake_in_order_mono; [|apply Hc, Hst]. by eexists.
  - apply Forall_insert.
    + eapply Forall_impl; [exact Hp|]. intros p. apply pending_ok_mono. by eexists.
    + cbn. pose proof (Forall_lookup_1 _ _ _ _ Hp E) as Hd. cbn in Hd.
      change [requestScaleDevice_resolved d; connectToScale_resolved d char]
        with ([requestScaleDevice_resolved d] ++ [connectToScale_resolved d char]).
      apply sublist_app; [assumption|reflexivity].
Qed.

Lemma addEventListener_frame (c : BluetoothRemoteGATTCharacteristic) (r : Render)
    (w : World) :
  state (addEventListener c r w) = state w
  /\ pending (addEventListener c r w) = pending w
  /\ log (addEventListener c r w) = log w
  /\ disconnect_listeners (addEventListener c r w) = disconnect_listeners w.
Proof.
  unfold addEventListener. destruct (existsb _ _); repeat split; reflexivity.
Qed.

Lemma handshake_inv_startNotifications_settled (i : nat) (outcome : () + Rejection)
    (w : World) :
  handshake_inv w -> handshake_inv (startNotifications_settled i outcome w).
Proof.
  intros H. unfold startNotifications_settled.
  destruct (pending w !! i) as [[r|r d|r d c]|] eqn:E; try assumption.
  destruct outcome as [[]|e].
  - destruct H as [Hc Hp].
    pose proof (Forall_lookup_1 _ _ _ _ Hp E) as Hd. cbn in Hd.
    split; cbn.
    + intros _.
      destruct (addEventListener_frame c r
        (record (startNotifications_resolved c) (set_pending (delete i (pending w)) w)))
        as (_ & _ & -> & _).
      cbn. exists d, c.
      change [requestScaleDevice_resolved d; connectToScale_resolved d c;
              startNotifications_resolved c]
        with ([requestScaleDevice_resolved d; connectToScale_resolved d c]
              ++ [startNotifications_resolved c]).
      apply sublist_app; [assumption|reflexivity].
    + destruct (addEventListener_frame c r
        (record (startNotifications_resolved c) (set_pending (delete i (pending w)) w)))
        as (_ & -> & -> & _).
      cbn. apply Forall_delete.
      eapply Forall_impl; [exact Hp|]. intros p. apply pending_ok_mono. by eexists.
  - apply (handshake_inv_connect_failed e i w w); [assumption|reflexivity ..].
Qed.

Lemma handshake_inv_step (ev : Event) (w : World) :
  handshake_inv w -> handshake_inv (step ev w).
Proof.
  intros H. destruct ev as [ | | |i o|i o|i o|c value now|d| ]; cbn [step].
  - unfold button_onClick. destruct (connectionState (state w)).
    + apply handshake_inv_connectToScaleDevice, H.
    + exact H.
    + apply handshake_inv_disconnect, H.
    + apply handshake_inv_connectToScaleDevice, H.
  - apply handshake_inv_connectToScaleDevice, H.
  - apply handshake_inv_disconnect, H.
  - apply handshake_inv_requestScaleDevice_settled, H.
  - apply handshake_inv_connectToScale_settled, H.
  - apply handshake_inv_startNotifications_settled, H.
  - destruct (dispatch_value_frame c value now w) as (Hs & Hp & Hl & _).
    apply (handshake_inv_mono w); [assumption|assumption| |].
    + rewrite Hp. auto.
    + rewrite Hs. auto.
  - destruct (dispatch_disconnected_frame d w) as (Hs & Hp & Hl & _).
    apply (handshake_inv_mono w); [assumption| | |].
    + rewrite Hl. reflexivity.
    + rewrite Hp. auto.
    + destruct Hs as [-> | ->]; [auto|discriminate].
  - apply (handshake_inv_mono w); [assumption|reflexivity|auto|auto].
Qed.

Lemma handshake_inv_reachable (supported : bool) (w : World) :
  reachable supported w -> handshake_inv w.
Proof.
  induction 1 as [|w ev _ IH].
  - split; cbn; [discriminate|constructor].
  - apply handshake_inv_step, IH.
Qed.

Lemma reachable_run (supported : bool) (evs : list Event) (w : World) :
  reachable supported w -> reachable supported (run evs w).
Proof.
  revert w. induction evs as [|ev evs IH]; intros w H; cbn; [assumption|].
  apply IH, reachable_step, H.
Qed.

(** ** The reading classifier *)

(** What the handler of render [r] does with a decoded reading: it tells the
    consumer when the reading is stable and differs in weight or unit from the
    [lastStableReading] that [r] saw, and only then. *)
Lemma handler_notifies_iff (r : Render) (data : DataView) (now : Z) (w : World)
    (reading : ScaleReading) :
  parseScaleData data now = Ok (Some reading) ->
  let w' := handleCharacteristicValueChanged r (Some data) now w in
  currentReading (state w') = Some reading
  /\ notifications w'
     = (notifications w
        + if isStable reading && differs_from (lastStableReading (r_state r)) reading
          then 1 else 0)%nat.
Proof.
  intros H. unfold handleCharacteristicValueChanged. rewrite H.
  destruct (isStable reading && _); cbn.
  - split; [reflexivity|]. unfold notifications. cbn.
    rewrite List.filter_app, length_app. reflexivity.
  - split; [reflexivity|]. unfold notifications. cbn. lia.
Qed.

(** An unstable reading is displayed and never reported. *)
Lemma unstable_reading_is_not_notified (r : Render) (data : DataView) (now : Z)
    (w : World) (reading : ScaleReading) :
  parseScaleData data now = Ok (Some reading) -> isStable reading = false ->
  let w' := handleCharacteristicValueChanged r (Some data) now w in
  currentReading (state w') = Some reading /\ log w' = log w.
Proof.
  intros H Hu. unfold handleCharacteristicValueChanged. rewrite H, Hu. cbn.
  split; reflexivity.
Qed.

(** The listener registered by a connection started from the first render
    closes over [lastStableReading = null]: it reports every stable reading. *)
Lemma first_render_listener_reports_every_stable_reading (data : DataView) (now : Z)
    (w : World) (reading : ScaleReading) :
  parseScaleData data now = Ok (Some reading) -> isStable reading = true ->
  notifications (handleCharacteristicValueChanged firstRender (Some data) now w)
  = S (notifications w).
Proof.
  intros H Hs.
  destruct (handler_notifies_iff firstRender data now w reading H) as [_ ->].
  rewrite Hs. cbn. lia.
Qed.

(** C6 (as the code behaves).  After a connection made from the freshly
    mounted component, two [characteristicvaluechanged] events that carry the
    same stable frame (100 g) call [onStableReading] twice.  The listener that
    [connectToScaleDevice] registered is the handler of the render in which the
    button was clicked; it compares every reading with the [lastStableReading]
    of that render, which is [null], and [setLastStableReading] does not reach
    it. *)
Theorem equal_stable_readings_are_reported_twice :
  let w := run two_equal_stable_frames (initialWorld true) in
  notifications w = 2%nat
  /\ log w = [requestScaleDevice_resolved 1%nat; connectToScale_resolved 1%nat 2%nat;
              startNotifications_resolved 2%nat;
              onStableReading_called (reading_100g 1000);
              onStableReading_called (reading_100g 1200)]
  /\ value_listeners w = [(2%nat, firstRender)]
  /\ lastStableReading (state w) = Some (reading_100g 1200).
Proof. vm_compute. repeat split; reflexivity. Qed.

(** ** Disconnecting *)

(** C7.  [disconnect] is idempotent.  After [disconnect()] the state is
    [disconnected]; a second [disconnect()] (the one the next render creates)
    changes nothing at all, so it makes no teardown call; a
    [gattserverdisconnected] event that arrives after [disconnect()] leaves the
    state [disconnected], the log of calls and the registered listeners as
    they were; and so does the cleanup of the unmounting component, which is
    the [disconnect] of the first render. *)
Theorem disconnect_is_idempotent (w : World) :
  let w1 := disconnect (render w) w in
  connectionState (state w1) = st_disconnected
  /\ disconnect (render w1) w1 = w1
  /\ teardown_calls (disconnect (render w1) w1) = teardown_calls w1
  /\ (forall d,
        let w2 := dispatch_disconnected d w1 in
        connectionState (state w2) = st_disconnected
        /\ log w2 = log w1
        /\ teardown_calls w2 = teardown_calls w1
        /\ value_listeners w2 = value_listeners w1)
  /\ (let w3 := disconnect firstRender w1 in
      connectionState (state w3) = st_disconnected
      /\ teardown_calls w3 = teardown_calls w1).
Proof.
  intros w1.
  assert (disconnect (render w1) w1 = w1) as Hagain.
  { subst w1. unfold disconnect at 1. cbn. reflexivity. }
  destruct (disconnect_frame (render w) w) as (Hs & _ & _ & _ & _). fold w1 in Hs.
  split; [exact Hs|]. split; [exact Hagain|]. split; [rewrite Hagain; reflexivity|].
  split; [|split; reflexivity].
  intros d w2.
  destruct (dispatch_disconnected_frame d w1) as (Hst & _ & Hl & Hv). fold w2 in Hst, Hl, Hv.
  split; [destruct Hst as [-> | ->]; [exact Hs|reflexivity]|].
  split; [exact Hl|]. split; [unfold teardown_calls; rewrite Hl; reflexivity|exact Hv].
Qed.

(** The cleanup that runs when the component is unmounted is the [disconnect]
    of the first render, where [device] and [characteristic] are [null]: it
    makes no teardown call, whatever the session is. *)
Lemma unmount_cleanup_makes_no_teardown_call (w : World) :
  log (disconnect firstRender w) = log w
  /\ gatt_connected (disconnect firstRender w) = gatt_connected w
  /\ value_listeners (disconnect firstRender w) = value_listeners w.
Proof. repeat split; reflexivity. Qed.

(** A [disconnect] function that is kept and called a second time, without
    the render in between, still reads the [device] and [characteristic] of its
    own render: it calls [removeEventListener] again but not
    [gatt.disconnect()], because [gatt.connected] is read from the device
    itself.  The component never does this: the button takes the [disconnect]
    of the current render and the cleanup takes the one of the first render. *)
Lemma kept_disconnect_called_twice (r : Render) (w : World) :
  let w1 := disconnect r w in
  let w2 := disconnect r w1 in
  connectionState (state w2) = st_disconnected
  /\ gatt_connected w2 = gatt_connected w1
  /\ log w2 = log w1 ++ match characteristic (r_state r) with
                        | Some c => [removeEventListener_called c (r_handler r)]
                        | None => []
                        end.
Proof.
  cbn zeta. split; [apply disconnect_frame|].
  assert (forall d, device (r_state r) = Some d ->
                    bool_decide (d ∈ gatt_connected (disconnect r w)) = false)
    as Hgone.
  { intros d Hd. apply bool_decide_eq_false_2. unfold disconnect. rewrite Hd.
    destruct (characteristic (r_state r)); cbn;
      destruct (bool_decide (d ∈ gatt_connected w)) eqn:E; cbn;
      solve [ apply not_elem_of_difference; right; by apply elem_of_singleton
            | by apply bool_decide_eq_false_1 in E ]. }
  remember (disconnect r w) as w1 eqn:Ew1 in *. clear Ew1.
  unfold disconnect.
  destruct (device (r_state r)) as [d|] eqn:Hd.
  - specialize (Hgone d eq_refl).
    destruct (characteristic (r_state r)) as [c|]; cbn;
      rewrite Hgone; cbn; split; try reflexivity; by rewrite app_nil_r.
  - destruct (characteristic (r_state r)) as [c|]; cbn;
      split; try reflexivity; by rewrite app_nil_r.
Qed.

(** ** Connecting *)

(** C8, counterexample.  In the state [connected], a call of
    [connectToScaleDevice] sets the state to [connecting] and starts a new
    device request. *)
Lemma connect_while_connected_is_not_a_no_op :
  connectionState (state connected_world) = st_connected
  /\ connectionState (state (step call_connectToScaleDevice connected_world))
     = st_connecting
  /\ pending (step call_connectToScaleDevice connected_world)
     = [await_requestScaleDevice (render connected_world)].
Proof. vm_compute. repeat split; reflexivity. Qed.

(** [connected] is entered by one event only: the resolution of
    [startNotifications()] for a run suspended there. *)
Lemma connected_entry (w : World) (ev : Event) :
  connectionState (state (step ev w)) = st_connected ->
  connectionState (state w) = st_connected
  \/ exists i r d c,
      ev = startNotifications_settles i (inl ())
      /\ pending w !! i = Some (await_startNotifications r d c)
      /\ log (step ev w) = log w ++ [startNotifications_resolved c].
Proof.
  assert (forall r, connectionState (state (connectToScaleDevice r w)) <> st_connected)
    as Hconnect.
  { intros r. unfold connectToScaleDevice. destruct (bluetoothSupported w); discriminate. }
  assert (forall r, connectionState (state (disconnect r w)) <> st_connected)
    as Hdisconnect.
  { intros r. destruct (disconnect_frame r w) as (-> & _). discriminate. }
  destruct ev as [ | | |i o|i o|i o|c value now|d| ]; cbn [step].
  - unfold button_onClick. destruct (connectionState (state w)) eqn:E; intros H;
      try (exfalso; revert H; first [apply Hconnect|apply Hdisconnect]).
    rewrite E in H. discriminate.
  - intros H. exfalso. exact (Hconnect _ H).
  - intros H. exfalso. exact (Hdisconnect _ H).
  - unfold requestScaleDevice_settled.
    destruct (pending w !! i) as [[r|r d|r d c]|]; try (left; assumption).
    destruct o; cbn; [left; assumption|discriminate].
  - unfold connectToScale_settled.
    destruct (pending w !! i) as [[r|r d|r d c]|]; try (left; assumption).
    destruct o; cbn; try discriminate. left; assumption.
  - unfold startNotifications_settled.
    destruct (pending w !! i) as [[r|r d|r d c]|] eqn:E; try (left; assumption).
    destruct o as [[]|e]; [|cbn; discriminate].
    intros _. right. exists i, r, d, c. split; [reflexivity|]. split; [exact E|].
    cbn.
    destruct (addEventListener_frame c r
      (record (startNotifications_resolved c) (set_pending (delete i (pending w)) w)))
      as (_ & _ & -> & _).
    reflexivity.
  - destruct (dispatch_value_frame c value now w) as (-> & _). auto.
  - destruct (dispatch_disconnected_frame d w) as ([-> | ->] & _); [auto|discriminate].
  - auto.
Qed.

(** Where the suspended runs come from, position by position. *)
Lemma pending_ancestry (w : World) (ev : Event) (j : nat) (p : Pending) :
  pending (step ev w) !! j = Some p ->
  pending w !! j = Some p \/ pending w !! S j = Some p \/ run_created ev w j p.
Proof.
  assert (forall i (Q : Prop),
             delete i (pending w) !! j = Some p ->
             pending w !! j = Some p \/ pending w !! S j = Some p \/ Q) as Hdelete.
  { intros i Q H. destruct (Nat.lt_ge_cases j i) as [Hlt|Hge].
    - rewrite list_lookup_delete_lt in H by assumption. auto.
    - rewrite list_lookup_delete_ge in H by assumption. auto. }
  assert (forall r ev',
             connect_call ev' ->
             pending (connectToScaleDevice r w) !! j = Some p ->
             r = render w ->
             pending w !! j = Some p \/ pending w !! S j = Some p
             \/ run_created ev' w j p) as Hconnect.
  { intros r ev' Hev. unfold connectToScaleDevice.
    destruct (bluetoothSupported w); cbn; [|auto].
    intros H Hr. apply lookup_snoc_Some in H as [[_ H]|[-> <-]]; [auto|].
    right. right. cbn. auto. }
  assert (forall r, pending (disconnect r w) = pending w) as Hdisconnect
    by (intros r; apply disconnect_frame).
  destruct ev as [ | | |i o|i o|i o|c value now|d| ]; cbn [step].
  - unfold button_onClick. destruct (connectionState (state w)).
    + intros H. apply (Hconnect (render w) click); [left|..]; auto.
    + auto.
    + rewrite Hdisconnect. auto.
    + intros H. apply (Hconnect (render w) click); [left|..]; auto.
  - intros H. apply (Hconnect (render w) call_connectToScaleDevice); [right|..]; auto.
  - rewrite Hdisconnect. auto.
  - unfold requestScaleDevice_settled.
    destruct (pending w !! i) as [[r|r d|r d c]|] eqn:E; auto.
    destruct o as [d|e]; cbn; [|apply Hdelete].
    intros H. apply list_lookup_insert_Some in H as [(-> & <- & _)|(_ & H)]; [|auto].
    right. right. cbn. unfold requestScaleDevice_settled. rewrite E. auto.
  - unfold connectToScale_settled.
    destruct (pending w !! i) as [[r|r d|r d c]|] eqn:E; auto.
    destruct o as [e|e|e|c]; cbn; try apply Hdelete.
    intros H. apply list_lookup_insert_Some in H as [(-> & <- & _)|(_ & H)]; [|auto].
    right. right. cbn. unfold connectToScale_settled. rewrite E. auto.
  - unfold startNotifications_settled.
    destruct (pending w !! i) as [[r|r d|r d c]|] eqn:E; auto.
    destruct o as [[]|e]; [|cbn; apply Hdelete].
    cbn zeta.
    destruct (addEventListener_frame c r
      (record (startNotifications_resolved c) (set_pending (delete i (pending w)) w)))
      as (_ & Hp & _ & _).
    cbn. rewrite Hp. cbn. apply Hdelete.
  - destruct (dispatch_value_frame c value now w) as (_ & -> & _). auto.
  - destruct (dispatch_disconnected_frame d w) as (_ & -> & _). auto.
  - auto.
Qed.

(** The invariant counted from a base log. *)
Lemma handshake_since_mono (base : list Call) (w w' : World) :
  handshake_since base w ->
  log w `prefix_of` log w' ->
  (forall p, p ∈ pending w' -> p ∈ pending w) ->
  (connectionState (state w') = st_connected ->
   connectionState (state w) = st_connected) ->
  handshake_since base w'.
Proof.
  intros (l & Hl & Hc & Hp) [k Hk] Hpend Hst.
  exists (l ++ k). split; [rewrite Hk, Hl, app_assoc; reflexivity|]. split.
  - intros H. eapply handshake_in_order_mono; [by eexists|]. auto.
  - apply Forall_forall. intros p Hin.
    eapply pending_ok_mono; [by eexists|].
    rewrite Forall_forall in Hp. auto.
Qed.

Lemma handshake_since_failed (base : list Call) (e : Rejection) (i : nat) (w w' : World) :
  handshake_since base w -> log w' = log w -> pending w' = pending w ->
  handshake_since base (connect_failed e (set_pending (delete i (pending w')) w')).
Proof.
  intros (l & Hl & Hc & Hp) Hlog Hpend. exists l. cbn.
  split; [rewrite Hlog; exact Hl|]. split; [discriminate|].
  rewrite Hpend. apply Forall_delete, Hp.
Qed.

Lemma handshake_since_step (base : list Call) (ev : Event) (w : World) :
  handshake_since base w -> handshake_since base (step ev w).
Proof.
  intros H.
  assert (forall r, handshake_since base (connectToScaleDevice r w)) as Hconnect.
  { intros r. destruct H as (l & Hl & Hc & Hp). unfold connectToScaleDevice.
    destruct (bluetoothSupported w); exists l; cbn;
      (split; [exact Hl|]); (split; [discriminate|]); [|exact Hp].
    apply Forall_app. split; [exact Hp|]. repeat constructor. }
  assert (forall r, handshake_since base (disconnect r w)) as Hdisconnect.
  { intros r. destruct (disconnect_frame r w) as (Hs & _ & _ & Hp & Hl).
    apply (handshake_since_mono base w); [assumption|assumption| |].
    - rewrite Hp. auto.
    - rewrite Hs. discriminate. }
  destruct ev as [ | | |i o|i o|i o|c value now|d| ]; cbn [step].
  - unfold button_onClick. destruct (connectionState (state w)); auto.
  - apply Hconnect.
  - apply Hdisconnect.
  - unfold requestScaleDevice_settled.
    destruct (pending w !! i) as [[r|r d|r d c]|] eqn:E; try assumption.
    destruct o as [d|e];
      [|apply (handshake_since_failed base e i w w); [assumption|reflexivity ..]].
    destruct H as (l & Hl & Hc & Hp).
    exists (l ++ [requestScaleDevice_resolved d]). cbn.
    split; [rewrite Hl, app_assoc; reflexivity|]. split.
    + intros Hst. eapply handshake_in_order_mono; [by eexists|]. auto.
    + apply Forall_insert.
      * eapply Forall_impl; [exact Hp|]. intros p. apply pending_ok_mono. by eexists.
      * cbn. apply sublist_inserts_l. reflexivity.
  - unfold connectToScale_settled.
    destruct (pending w !! i) as [[r|r d|r d c]|] eqn:E; try assumption.
    cbn zeta.
    destruct o as [e|e|e|c];
      [ apply (handshake_since_failed base e i w w); [assumption|reflexivity ..]
      | apply (handshake_since_failed base e i w
                 (set_gatt_connected ({[d]} ∪ gatt_connected w) w));
        [assumption|reflexivity ..] ..
      | ].
    destruct H as (l & Hl & Hc & Hp).
    exists (l ++ [connectToScale_resolved d c]). cbn.
    split; [rewrite Hl, app_assoc; reflexivity|]. split.
    + intros Hst. eapply handshake_in_order_mono; [by eexists|]. auto.
    + apply Forall_insert.
      * eapply Forall_impl; [exact Hp|]. intros p. apply pending_ok_mono. by eexists.
      * cbn. pose proof (Forall_lookup_1 _ _ _ _ Hp E) as Hd. cbn in Hd.
        change [requestScaleDevice_resolved d; connectToScale_resolved d c]
          with ([requestScaleDevice_resolved d] ++ [connectToScale_resolved d c]).
        apply sublist_app; [assumption|reflexivity].
  - unfold startNotifications_settled.
    destruct (pending w !! i) as [[r|r d|r d c]|] eqn:E; try assumption.
    destruct o as [[]|e];
      [|apply (handshake_since_failed base e i w w); [assumption|reflexivity ..]].
    destruct H as (l & Hl & Hc & Hp).
    pose proof (Forall_lookup_1 _ _ _ _ Hp E) as Hd. cbn in Hd.
    destruct (addEventListener_frame c r
      (record (startNotifications_resolved c) (set_pending (delete i (pending w)) w)))
      as (_ & Hpa & Hla & _).
    exists (l ++ [startNotifications_resolved c]). cbn.
    rewrite Hla, Hpa. cbn.
    split; [rewrite Hl, app_assoc; reflexivity|]. split.
    + intros _. exists d, c.
      change [requestScaleDevice_resolved d; connectToScale_resolved d c;
              startNotifications_resolved c]
        with ([requestScaleDevice_resolved d; connectToScale_resolved d c]
              ++ [startNotifications_resolved c]).
      apply sublist_app; [assumption|reflexivity].
    + apply Forall_delete.
      eapply Forall_impl; [exact Hp|]. intros p. apply pending_ok_mono. by eexists.
  - destruct (dispatch_value_frame c value now w) as (Hs & Hp & Hl & _).
    apply (handshake_since_mono base w); [assumption|assumption| |].
    + rewrite Hp. auto.
    + rewrite Hs. auto.
  - destruct (dispatch_disconnected_frame d w) as (Hs & Hp & Hl & _).
    apply (handshake_since_mono base w); [assumption| | |].
    + rewrite Hl. reflexivity.
    + rewrite Hp. auto.
    + destruct Hs as [-> | ->]; [auto|discriminate].
  - apply (handshake_since_mono base w); [assumption|reflexivity|auto|auto].
Qed.

Lemma handshake_since_run (base : list Call) (evs : list Event) (w : World) :
  handshake_since base w -> handshake_since base (run evs w).
Proof.
  revert w. induction evs as [|ev evs IH]; intros w H; cbn; [assumption|].
  apply IH, handshake_since_step, H.
Qed.

(** C8, amended.  [connectToScaleDevice] has no guard on the state: where
    Bluetooth is supported it sets the state to [connecting] and starts a
    device request from any state.  The guard is the button: it is disabled
    while the state is [connecting], and while the state is [connected] its
    click calls [disconnect].

    The state [connected] is entered in one way only, whatever the world: by
    the resolution of [startNotifications()] of a run suspended at that await.
    A run stands at that await only because the [connectToScale] of the same
    run resolved, and at the await of [connectToScale] only because the device
    request of the same run resolved; a run is started only by a call of
    [connectToScaleDevice].  So from any world that is not [connected] and has
    no run under way (a fresh mount, or the end of an earlier session), every
    series of events that ends in [connected] has logged, since that world, a
    resolved device request, the GATT connection to that device and the start
    of notifications on its characteristic, in this order; and in every
    reachable [connected] world the log holds such a handshake. *)
Theorem connected_only_after_the_handshake :
  (forall r w,
      bluetoothSupported w = true ->
      let w' := connectToScaleDevice r w in
      connectionState (state w') = st_connecting
      /\ pending w' = pending w ++ [await_requestScaleDevice r])
  /\ (forall w, connectionState (state w) = st_connecting -> button_onClick w = w)
  /\ (forall w, connectionState (state w) = st_connected ->
                button_onClick w = disconnect (render w) w)
  /\ (forall supported w,
        reachable supported w ->
        connectionState (state w) = st_connected ->
        handshake_in_order (log w))
  /\ (forall w ev,
        connectionState (state (step ev w)) = st_connected ->
        connectionState (state w) = st_connected
        \/ exists i r d c,
            ev = startNotifications_settles i (inl ())
            /\ pending w !! i = Some (await_startNotifications r d c)
            /\ log (step ev w) = log w ++ [startNotifications_resolved c])
  /\ (forall w ev j p,
        pending (step ev w) !! j = Some p ->
        pending w !! j = Some p \/ pending w !! S j = Some p
        \/ run_created ev w j p)
  /\ (forall w evs,
        connectionState (state w) <> st_connected ->
        pending w = [] ->
        connectionState (state (run evs w)) = st_connected ->
        exists l, log (run evs w) = log w ++ l /\ handshake_in_order l).
Proof.
  split; [|split; [|split; [|split; [|split; [|split]]]]].
  - intros r w Hsup w'. subst w'. unfold connectToScaleDevice. rewrite Hsup.
    cbn. split; reflexivity.
  - intros w H. unfold button_onClick. rewrite H. reflexivity.
  - intros w H. unfold button_onClick. rewrite H. reflexivity.
  - intros supported w Hr Hst. apply (handshake_inv_reachable supported w Hr), Hst.
  - apply connected_entry.
  - apply pending_ancestry.
  - intros w evs Hnot Hnone Hst.
    assert (handshake_since (log w) w) as H0.
    { exists []. split; [by rewrite app_nil_r|]. split; [contradiction|].
      rewrite Hnone. constructor. }
    destruct (handshake_since_run (log w) evs w H0) as (l & Hl & Hc & _).
    exists l. split; [exact Hl|exact (Hc Hst)].
Qed.

Lemma connected_only_after_the_handshake_witness :
  connectionState (state (connectToScaleDevice (render connected_world) connected_world))
  = st_connecting
  /\ handshake_in_order (log connected_world)
  /\ (exists l,
        log (run connect_session (step call_disconnect connected_world))
        = log (step call_disconnect connected_world) ++ l
        /\ handshake_in_order l).
Proof.
  destruct connected_only_after_the_handshake as (A & _ & _ & D & _ & _ & G).
  split; [|split].
  - apply (A (render connected_world) connected_world). reflexivity.
  - apply (D true connected_world); [|reflexivity].
    apply reachable_run, reachable_initial.
  - apply (G (step call_disconnect connected_world) connect_session).
    + vm_compute. discriminate.
    + reflexivity.
    + reflexivity.
Defined.


(** * Further properties of the code *)

(** ** The scan of Method 2 *)

Lemma getUint8_Ok (data : DataView) (i b : Z) :
  getUint8 data i = Ok b ->
  0 <= i < byteLength data /\ byte_at data i = Some b /\ 0 <= b < 256.
Proof.
  unfold getUint8.
  destruct ((i <? 0) || (byteLength data <? i + 1)) eqn:E; [discriminate|].
  assert (0 <= i < byteLength data) as Hi by lia.
  destruct (byte_at_in_range data i Hi) as (b' & Hb & Hr). rewrite Hb.
  intros [= <-]. auto.
Qed.

Lemma getUint16_big_endian_range (data : DataView) (i v : Z) :
  getUint16 data i false = Ok v -> 0 <= v < 65536.
Proof.
  intros H. pose proof (getUint16_Ok_range _ _ _ _ H) as [Hlo Hhi].
  unfold getUint16 in H.
  replace ((i <? 0) || (byteLength data <? i + 2)) with false in H by lia.
  destruct (byte_at_in_range data i) as (b0 & E0 & H0); [lia|].
  destruct (byte_at_in_range data (i + 1)) as (b1 & E1 & H1); [lia|].
  rewrite E0, E1 in H. injection H as <-. lia.
Qed.

Lemma range_forallb (P : Z -> bool) (n : nat) :
  forallb P (map Z.of_nat (seq 1 n)) = true ->
  forall z, 0 < z <= Z.of_nat n -> P z = true.
Proof.
  intros H z Hz. rewrite forallb_forall in H. apply H.
  apply in_map_iff. exists (Z.to_nat z). split; [lia|].
  apply in_seq. lia.
Qed.

Lemma raw_check_all (raw : Z) : 0 < raw < 10000 -> raw_check raw = true.
Proof.
  intros H. apply (range_forallb raw_check (Z.to_nat 9999)); [|lia].
  vm_compute. reflexivity.
Qed.

Lemma raw_check_facts (raw : Z) :
  0 < raw < 10000 ->
  (num 1 * num raw / num 10 = num raw / num 10)%float
  /\ (num 1 * num raw / num 1 = num raw / num 1)%float
  /\ weight_test (num raw / num 10) = true
  /\ weight_test (num raw / num 1) = (raw <=? 5000)
  /\ weight_test (num (-1) * num raw / num 10) = false
  /\ weight_test (num (-1) * num raw / num 1) = false.
Proof.
  intros H. pose proof (raw_check_all raw H) as C. unfold raw_check in C.
  repeat (apply andb_true_iff in C as [C ?]).
  repeat split.
  - by apply FloatAxioms.Leibniz.eqb_spec.
  - by apply FloatAxioms.Leibniz.eqb_spec.
  - assumption.
  - by apply Bool.eqb_prop.
  - by apply negb_true_iff.
  - by apply negb_true_iff.
Qed.

Lemma sign_read (data : DataView) (k : Z) :
  0 <= k <= byteLength data ->
  (if k >? 0
   then getUint8 data (k - 1) ≫= (fun b => Ok (if b =? 0 then 1 else -1))
   else Ok 1)
  = Ok (if preceded_by_zero data k then 1 else -1).
Proof.
  intros Hk. unfold preceded_by_zero.
  destruct (Z.gtb_spec k 0) as [Hpos|Hzero].
  - destruct (getUint8_in_range data (k - 1)) as (b & Hb & _); [lia|].
    rewrite Hb. apply getUint8_Ok in Hb as (_ & -> & _).
    replace (k =? 0) with false by lia. cbn.
    destruct b as [|p|p]; reflexivity.
  - replace (k =? 0) with true by lia. reflexivity.
Qed.

(** X1.  What Method 2 does at one offset, in terms of the bytes alone.  With
    [raw] the big-endian 16-bit value at the offset, [code] the byte after it
    and [sb] the byte after that, the offset yields a reading exactly when
    [0 < raw < 10000], [code <= 6], the byte before the offset is zero (or the
    offset is 0), and [raw <= 5000] unless the code is 2 or more.  The reading
    then has the weight [raw] (codes 0, 1) or [raw / 10] (codes 2 to 6), the
    unit of the code, and is stable exactly when [sb] is 1: a nonzero byte
    before the offset never gives a negative reading, it rejects the offset,
    and the stability flag never falls back to its default. *)
Theorem method2_offset_characterised (data : DataView) (now k raw code sb : Z) :
  getUint16 data k false = Ok raw ->
  getUint8 data (k + 2) = Ok code ->
  getUint8 data (k + 3) = Ok sb ->
  method2_try data now k
  = Ok (if method2_plausible raw code && preceded_by_zero data k
           && ((2 <=? code) || (raw <=? 5000))
        then Some {| weight :=
                       (num raw / num (if (2 <=? code)%Z then 10%Z else 1%Z))%float;
                     ScaleTypes.unit := unit_of_code code;
                     isStable := sb =? 1;
                     timestamp := now |}
        else None).
Proof.
  intros H16 Hc Hs.
  pose proof (getUint16_Ok_range _ _ _ _ H16) as [Hlo Hhi].
  pose proof (getUint8_Ok _ _ _ Hc) as (Hcr & _ & Hcode).
  pose proof (getUint8_Ok _ _ _ Hs) as (Hsr & _ & _).
  unfold method2_try. rewrite H16. cbn.
  replace (k + 2 <? byteLength data) with true by lia. rewrite Hc. cbn.
  destruct (method2_plausible raw code) eqn:P; [|reflexivity].
  assert (0 < raw < 10000) as Hraw by (unfold method2_plausible in P; lia).
  destruct (raw_check_facts raw Hraw) as (F1 & F2 & F3 & F4 & F5 & F6).
  unfold weight_test in F3, F4, F5, F6.
  rewrite sign_read by lia. cbn.
  replace (k + 3 <? byteLength data) with true by lia. rewrite Hs. cbn.
  replace ((code =? 2) || (code >=? 3)) with (2 <=? code) by lia.
  destruct (preceded_by_zero data k), (2 <=? code);
    cbn [andb orb].
  - rewrite F1, F3. reflexivity.
  - rewrite F2, F4. destruct (raw <=? 5000); reflexivity.
  - rewrite F5. reflexivity.
  - rewrite F6. reflexivity.
Qed.

Lemma method2_offset_characterised_witness :
  method2_try frame_5000 7 0
  = Ok (Some {| weight := (num 5000 / num 1)%float; ScaleTypes.unit := g;
                isStable := true; timestamp := 7 |}).
Proof.
  apply (method2_offset_characterised frame_5000 7 0 5000 0 1); reflexivity.
Defined.

(** Inside the frame the body of Method 2 reads only bytes that exist: it
    never ends in the [catch]. *)
Lemma method2_try_in_range (data : DataView) (now k : Z) :
  0 <= k -> k + 4 <= byteLength data ->
  exists o, method2_try data now k = Ok o.
Proof.
  intros Hlo Hhi.
  assert (exists raw, getUint16 data k false = Ok raw) as [raw H16].
  { unfold getUint16.
    replace ((k <? 0) || (byteLength data <? k + 2)) with false by lia.
    destruct (byte_at_in_range data k) as (b0 & -> & _); [lia|].
    destruct (byte_at_in_range data (k + 1)) as (b1 & -> & _); [lia|]. eauto. }
  destruct (getUint8_in_range data (k + 2)) as (code & Hc & _); [lia|].
  destruct (getUint8_in_range data (k + 3)) as (sb & Hs & _); [lia|].
  unfold method2_try. rewrite H16. cbn.
  replace (k + 2 <? byteLength data) with true by lia. rewrite Hc. cbn.
  destruct (method2_plausible raw code); [|eauto].
  rewrite sign_read by lia. cbn.
  replace (k + 3 <? byteLength data) with true by lia. rewrite Hs. cbn.
  destruct (_ && _); eauto.
Qed.

Lemma method2_from_first (data : DataView) (now : Z) (r : ScaleReading) (trips : nat) :
  forall offset k,
    offset <= k < offset + Z.of_nat trips ->
    method2_try data now k = Ok (Some r) ->
    (forall j, offset <= j < k -> method2_try data now j = Ok None) ->
    method2_from data now offset trips = Some r.
Proof.
  induction trips as [|trips IH]; intros offset k Hk Hr Hbefore; [lia|].
  cbn [method2_from].
  destruct (Z.eq_dec offset k) as [->|Hne].
  - rewrite Hr. reflexivity.
  - rewrite Hbefore by lia. cbn. apply (IH (offset + 1) k); [lia|assumption|].
    intros j Hj. apply Hbefore. lia.
Qed.

Lemma method2_from_least (data : DataView) (now : Z) (r : ScaleReading) (trips : nat) :
  forall offset,
    (forall j, offset <= j < offset + Z.of_nat trips ->
               exists o, method2_try data now j = Ok o) ->
    method2_from data now offset trips = Some r ->
    exists k, offset <= k < offset + Z.of_nat trips
              /\ method2_try data now k = Ok (Some r)
              /\ forall j, offset <= j < k -> method2_try data now j = Ok None.
Proof.
  induction trips as [|trips IH]; intros offset Hok; cbn [method2_from];
    [discriminate|].
  destruct (Hok offset) as [[r'|] E]; [lia| |]; rewrite E; cbn.
  - intros [= <-]. exists offset. split; [lia|]. split; [assumption|]. intros j Hj; lia.
  - intros H. destruct (IH (offset + 1)) as (k & Hk & Hr & Hb); [|assumption|].
    + intros j Hj. apply Hok. lia.
    + exists k. split; [lia|]. split; [assumption|].
      intros j Hj. destruct (Z.eq_dec j offset) as [->|]; [assumption|apply Hb; lia].
Qed.

Lemma method2_from_None_inv (data : DataView) (now : Z) (trips : nat) :
  forall offset,
    (forall j, offset <= j < offset + Z.of_nat trips ->
               exists o, method2_try data now j = Ok o) ->
    method2_from data now offset trips = None ->
    forall k, offset <= k < offset + Z.of_nat trips ->
              method2_try data now k = Ok None.
Proof.
  induction trips as [|trips IH]; intros offset Hok; cbn [method2_from];
    [intros _ k Hk; lia|].
  destruct (Hok offset) as [[r'|] E]; [lia| |]; rewrite E; cbn; [discriminate|].
  intros H k Hk. destruct (Z.eq_dec k offset) as [->|]; [assumption|].
  apply (IH (offset + 1)); [|assumption|lia].
  intros j Hj. apply Hok. lia.
Qed.

(** X2.  On a twelve-byte frame [parseScaleData] returns the reading of the
    smallest offset among 0..8 at which Method 2 yields one (every smaller
    offset yields none), and it returns [null] exactly when none of the nine
    offsets yields a reading.  Bytes 10 and 11 are never the start of a
    magnitude. *)
Theorem decode_returns_the_first_accepted_offset (data : DataView) (now : Z) :
  byteLength data = 12 ->
  (forall r,
      parseScaleData data now = Ok (Some r) <->
      exists k, 0 <= k <= 8
                /\ method2_try data now k = Ok (Some r)
                /\ forall j, 0 <= j < k -> method2_try data now j = Ok None)
  /\ (parseScaleData data now = Ok None <->
      forall k, 0 <= k <= 8 -> method2_try data now k = Ok None).
Proof.
  intros Hlen. rewrite parseScaleData_12 by assumption. unfold method2.
  rewrite Hlen. change (Z.to_nat (12 - 3)) with 9%nat.
  assert (forall j, 0 <= j < 0 + Z.of_nat 9 -> exists o, method2_try data now j = Ok o)
    as Hok by (intros j Hj; apply method2_try_in_range; lia).
  split.
  - intros r. split.
    + intros [= H]. destruct (method2_from_least data now r 9 0 Hok H)
        as (k & Hk & Hr & Hb).
      exists k. split; [lia|]. split; assumption.
    + intros (k & Hk & Hr & Hb). f_equal.
      apply (method2_from_first data now r 9 0 k); [lia|assumption|assumption].
  - split.
    + intros [= H] k Hk.
      apply (method2_from_None_inv data now 9 0 Hok H). lia.
    + intros Hall. f_equal. apply method2_from_None.
      intros k Hk. rewrite Hall by lia. reflexivity.
Qed.

Lemma decode_returns_the_first_accepted_offset_witness :
  parseScaleData frame_100g_stable 0 = Ok (Some (reading_100g 0)).
Proof.
  apply (proj1 (decode_returns_the_first_accepted_offset frame_100g_stable 0 eq_refl)).
  exists 0. split; [lia|]. split; [reflexivity|]. intros j Hj. lia.
Defined.

(** ** The connector: failures, link loss and listeners *)

(** X3.  A rejection at any of the three awaits of [connectToScaleDevice] ends
    that run in the [catch]: the state becomes [error] with the message of the
    rejection (or the fallback text), nothing is logged and no listener is
    registered.  No failure path closes the link: when the service or the
    characteristic is not found after [gatt.connect()] succeeded, the device
    stays connected and stays in [device]. *)
Theorem handshake_rejection_surfaces_as_error (w : World) (i : nat) (e : Rejection) :
  (forall r,
      pending w !! i = Some (await_requestScaleDevice r) ->
      failed_with e i w (requestScaleDevice_settled i (inr e) w))
  /\ (forall r d,
        pending w !! i = Some (await_connectToScale r d) ->
        failed_with e i w (connectToScale_settled i (gatt_connect_rejected e) w)
        /\ forall outcome,
            outcome = getPrimaryService_rejected e
            \/ outcome = getCharacteristic_rejected e ->
            let w' := connectToScale_settled i outcome w in
            failed_with e i w w'
            /\ d ∈ gatt_connected w'
            /\ device (state w') = device (state w))
  /\ (forall r d c,
        pending w !! i = Some (await_startNotifications r d c) ->
        let w' := startNotifications_settled i (inr e) w in
        failed_with e i w w' /\ gatt_connected w' = gatt_connected w).
Proof.
  split; [|split].
  - intros r H. unfold requestScaleDevice_settled. rewrite H.
    repeat split; reflexivity.
  - intros r d H. split.
    + unfold connectToScale_settled. rewrite H. repeat split; reflexivity.
    + intros outcome [-> | ->]; cbn zeta; unfold connectToScale_settled; rewrite H;
        (split; [repeat split; reflexivity|]); (split; [cbn; set_solver|reflexivity]).
  - intros r d c H. cbn zeta. unfold startNotifications_settled. rewrite H.
    repeat split; reflexivity.
Qed.

Lemma handshake_rejection_surfaces_as_error_witness :
  connectionState
    (state (run [click; requestScaleDevice_settles 0 (inr (rejected_Error "User cancelled"))]
                (initialWorld true))) = st_error
  /\ error
       (state (run [click; requestScaleDevice_settles 0 (inr (rejected_Error "User cancelled"))]
                   (initialWorld true))) = Some "User cancelled".
Proof.
  destruct (handshake_rejection_surfaces_as_error
              (step click (initialWorld true)) 0 (rejected_Error "User cancelled"))
    as (A & _ & _).
  destruct (A (render (initialWorld true)) eq_refl) as (Hs & He & _).
  split; [exact Hs|exact He].
Defined.

(** X4.  [disconnect] does not cancel a connection attempt that is under way:
    the suspended run stays, and when its [startNotifications()] resolves it
    registers its listeners and sets the state to [connected], while [device]
    and [characteristic] stay [null].  The [disconnect] of that state then has
    nothing to tear down: it makes no call, the link stays up and the listener
    stays registered. *)
Theorem disconnect_does_not_cancel_the_handshake (w : World) (i : nat)
    (r r' : Render) (d : BluetoothDevice) (c : BluetoothRemoteGATTCharacteristic) :
  pending w !! i = Some (await_startNotifications r d c) ->
  let w1 := disconnect r' w in
  let w2 := startNotifications_settled i (inl ()) w1 in
  let w3 := disconnect (render w2) w2 in
  pending w1 = pending w
  /\ connectionState (state w1) = st_disconnected
  /\ connectionState (state w2) = st_connected
  /\ device (state w2) = None
  /\ characteristic (state w2) = None
  /\ existsb (same_listener c (r_handler r)) (value_listeners w2) = true
  /\ d ∈ disconnect_listeners w2
  /\ log w3 = log w2
  /\ gatt_connected w3 = gatt_connected w2
  /\ value_listeners w3 = value_listeners w2.
Proof.
  intros H w1 w2 w3.
  destruct (disconnect_frame r' w) as (Hs & Hd & Hc & Hp & _).
  fold w1 in Hs, Hd, Hc, Hp.
  assert (pending w1 !! i = Some (await_startNotifications r d c)) as H1
    by (rewrite Hp; exact H).
  assert (state w2 = state (setConnectionState st_connected w1)
          /\ existsb (same_listener c (r_handler r)) (value_listeners w2) = true
          /\ d ∈ disconnect_listeners w2) as (Hst & Hl & Hdl).
  { subst w2. unfold startNotifications_settled. rewrite H1.
    remember w1 as v eqn:Ev. clear Ev. cbn zeta.
    unfold addEventListener. cbn.
    destruct (existsb (same_listener c (r_handler r)) (value_listeners v)) eqn:Ex; cbn.
    - split; [reflexivity|]. split; [exact Ex|]. set_solver.
    - split; [reflexivity|]. split; [|set_solver].
      rewrite existsb_app. cbn. unfold same_listener. cbn.
      rewrite !bool_decide_eq_true_2 by reflexivity. apply orb_true_r. }
  assert (device (state w2) = None /\ characteristic (state w2) = None) as [Hd2 Hc2].
  { rewrite Hst. cbn. split; assumption. }
  split; [exact Hp|]. split; [exact Hs|]. split; [rewrite Hst; reflexivity|].
  split; [exact Hd2|]. split; [exact Hc2|]. split; [exact Hl|]. split; [exact Hdl|].
  subst w3. unfold disconnect. cbn. rewrite Hd2, Hc2. repeat split; reflexivity.
Qed.

Lemma disconnect_does_not_cancel_the_handshake_witness :
  connectionState
    (state (run [click; requestScaleDevice_settles 0 (inl 1%nat);
                 connectToScale_settles 0 (characteristic_found 2%nat);
                 call_disconnect;
                 startNotifications_settles 0 (inl ())] (initialWorld true)))
  = st_connected.
Proof.
  pose (w := run [click; requestScaleDevice_settles 0 (inl 1%nat);
                  connectToScale_settles 0 (characteristic_found 2%nat)]
                 (initialWorld true)).
  apply (disconnect_does_not_cancel_the_handshake w 0 firstRender (render w) 1%nat 2%nat).
  reflexivity.
Defined.

Lemma gattserverdisconnected_listeners_reset (d : BluetoothDevice)
    (ls : list BluetoothDevice) (w : World) :
  let w' := foldl (fun w d' => if bool_decide (d' = d)
                                then on_gattserverdisconnected w else w) w ls in
  (d ∈ ls
   \/ (connectionState (state w) = st_disconnected /\ device (state w) = None
       /\ characteristic (state w) = None /\ currentReading (state w) = None) ->
   connectionState (state w') = st_disconnected /\ device (state w') = None
   /\ characteristic (state w') = None /\ currentReading (state w') = None)
  /\ error (state w') = error (state w)
  /\ lastStableReading (state w') = lastStableReading (state w)
  /\ gatt_connected w' = gatt_connected w.
Proof.
  revert w. induction ls as [|d' ls IH]; intros w; cbn [foldl].
  - split; [|repeat split; reflexivity].
    intros [Hin|H]; [by apply elem_of_nil in Hin|exact H].
  - destruct (bool_decide (d' = d)) eqn:E.
    + destruct (IH (on_gattserverdisconnected w)) as (I1 & I2 & I3 & I4).
      cbn zeta in *. rewrite I2, I3, I4. split; [|repeat split; reflexivity].
      intros _. apply I1. right. repeat split; reflexivity.
    + destruct (IH w) as (I1 & I2 & I3 & I4). cbn zeta in *.
      split; [|repeat split; assumption].
      intros [Hin|H]; apply I1; [left|right; exact H].
      apply elem_of_cons in Hin as [->|Hin]; [|exact Hin].
      apply bool_decide_eq_false_1 in E. contradiction.
Qed.

(** X5.  Loss of the link to a device for which a connection was completed
    (its [gattserverdisconnected] listener is registered) resets the connector:
    the state is [disconnected] and [device], [characteristic] and
    [currentReading] are [null].  It is not a teardown: no call is made, so
    the [characteristicvaluechanged] listeners stay registered, and [error],
    [lastStableReading] and the suspended runs are kept. *)
Theorem link_loss_resets_without_teardown (w : World) (d : BluetoothDevice) :
  d ∈ disconnect_listeners w ->
  let w' := dispatch_disconnected d w in
  connectionState (state w') = st_disconnected
  /\ device (state w') = None
  /\ characteristic (state w') = None
  /\ currentReading (state w') = None
  /\ error (state w') = error (state w)
  /\ lastStableReading (state w') = lastStableReading (state w)
  /\ (d ∉ gatt_connected w')
  /\ log w' = log w
  /\ value_listeners w' = value_listeners w
  /\ pending w' = pending w.
Proof.
  intros Hin w'.
  destruct (dispatch_disconnected_frame d w) as (_ & Hp & Hl & Hv).
  fold w' in Hp, Hl, Hv.
  destruct (gattserverdisconnected_listeners_reset d (disconnect_listeners w)
              (set_gatt_connected (gatt_connected w ∖ {[d]}) w))
    as (Hreset & He & Hs & Hg).
  cbn zeta in *. fold (dispatch_disconnected d w) in Hreset, He, Hs, Hg.
  fold w' in Hreset, He, Hs, Hg.
  destruct Hreset as (R1 & R2 & R3 & R4); [left; exact Hin|].
  repeat split; try assumption.
  rewrite Hg. cbn. set_solver.
Qed.

Lemma link_loss_resets_without_teardown_witness :
  connectionState (state (step (gattserverdisconnected 1%nat) connected_world))
  = st_disconnected
  /\ value_listeners (step (gattserverdisconnected 1%nat) connected_world)
     = value_listeners connected_world.
Proof.
  assert (1%nat ∈ disconnect_listeners connected_world) as Hin
    by (vm_compute; apply list_elem_of_here).
  destruct (link_loss_resets_without_teardown connected_world 1%nat Hin)
    as (Hs & _ & _ & _ & _ & _ & _ & _ & Hv & _).
  split; [exact Hs|exact Hv].
Defined.

(** X6.  A frame that does not decode changes nothing, in any world and for
    any listeners: a [null] value, a frame of any length other than 12 (the
    eight-byte heartbeat of the empty scale among them), or a twelve-byte frame
    that [parseScaleData] rejects.  In particular the reading on display is
    kept when the scale is emptied. *)
Theorem undecodable_frames_change_nothing
    (c : BluetoothRemoteGATTCharacteristic) (now : Z) (w : World) :
  dispatch_value c None now w = w
  /\ (forall data, length data <> 12%nat -> dispatch_value c (Some data) now w = w)
  /\ (forall data, parseScaleData data now = Ok None ->
                   dispatch_value c (Some data) now w = w).
Proof.
  assert (forall value,
             (forall r v, handleCharacteristicValueChanged r value now v = v) ->
             dispatch_value c value now w = w) as Hfold.
  { intros value Hid. unfold dispatch_value.
    generalize (value_listeners w) as ls. intros ls. revert w.
    induction ls as [|l ls IH]; intros w; cbn [foldl]; [reflexivity|].
    destruct (bool_decide (l.1 = c)); [rewrite Hid|]; apply IH. }
  assert (forall data, parseScaleData data now = Ok None ->
                       dispatch_value c (Some data) now w = w) as Hnone.
  { intros data H. apply Hfold. intros r v.
    unfold handleCharacteristicValueChanged. rewrite H. reflexivity. }
  split; [apply Hfold; reflexivity|]. split; [|exact Hnone].
  intros data Hlen. apply Hnone, parseScaleData_not_12. unfold byteLength. lia.
Qed.

Lemma undecodable_frames_change_nothing_witness :
  dispatch_value 2%nat (Some frame_heartbeat) 5 connected_world = connected_world.
Proof.
  destruct (undecodable_frames_change_nothing 2%nat 5 connected_world) as (_ & A & _).
  apply A. cbn. lia.
Defined.

(** What a notification does to the handler identity and to the listeners:
    the lists are kept, the identity never goes back, and it moves on when a
    listener of the characteristic reports the reading. *)
Lemma dispatch_value_handler (c : BluetoothRemoteGATTCharacteristic)
    (data : DataView) (now : Z) (reading : ScaleReading) (w : World) :
  parseScaleData data now = Ok (Some reading) ->
  let w' := dispatch_value c (Some data) now w in
  value_listeners w' = value_listeners w
  /\ characteristic (state w') = characteristic (state w)
  /\ (handler w <= handler w')%nat
  /\ forall r,
      (c, r) ∈ value_listeners w ->
      isStable reading && differs_from (lastStableReading (r_state r)) reading = true ->
      (handler w < handler w')%nat.
Proof.
  intros Hparse. unfold dispatch_value.
  assert (forall ls v,
    let v' := foldl (fun w l => if bool_decide (l.1 = c)
                                then handleCharacteristicValueChanged l.2 (Some data) now w
                                else w) v ls in
    value_listeners v' = value_listeners v
    /\ characteristic (state v') = characteristic (state v)
    /\ (handler v <= handler v')%nat
    /\ forall r, (c, r) ∈ ls ->
         isStable reading && differs_from (lastStableReading (r_state r)) reading = true ->
         (handler v < handler v')%nat) as Hfold.
  { induction ls as [|l ls IH]; intros v; cbn [foldl].
    - repeat split; try reflexivity; try lia. intros r Hin. by apply elem_of_nil in Hin.
    - destruct (bool_decide (l.1 = c)) eqn:E.
      + destruct (IH (handleCharacteristicValueChanged l.2 (Some data) now v))
          as (I1 & I2 & I3 & I4). cbn zeta in *.
        assert (value_listeners (handleCharacteristicValueChanged l.2 (Some data) now v)
                = value_listeners v
                /\ characteristic (state (handleCharacteristicValueChanged l.2 (Some data) now v))
                   = characteristic (state v)
                /\ (handler v <= handler (handleCharacteristicValueChanged l.2 (Some data) now v))%nat
                /\ (isStable reading
                    && differs_from (lastStableReading (r_state l.2)) reading = true ->
                    (handler v < handler (handleCharacteristicValueChanged l.2 (Some data) now v))%nat))
          as (J1 & J2 & J3 & J4).
        { unfold handleCharacteristicValueChanged. rewrite Hparse.
          destruct (isStable reading && _); cbn; repeat split;
            try reflexivity; try lia; try discriminate. }
        rewrite I1, I2, J1, J2. repeat split; try reflexivity;
          [exact (Nat.le_trans _ _ _ J3 I3)|].
        intros r Hin Hfire. apply elem_of_cons in Hin as [Heq|Hin].
        * subst l. cbn in J4. exact (Nat.lt_le_trans _ _ _ (J4 Hfire) I3).
        * exact (Nat.le_lt_trans _ _ _ J3 (I4 r Hin Hfire)).
      + destruct (IH v) as (I1 & I2 & I3 & I4). cbn zeta in *.
        repeat split; try assumption.
        intros r Hin Hfire. apply elem_of_cons in Hin as [Heq|Hin]; [|eauto].
        subst l. cbn in E. apply bool_decide_eq_false_1 in E. contradiction. }
  apply Hfold.
Qed.

Lemma filter_listener_keeps (c c' : BluetoothRemoteGATTCharacteristic) (h : nat)
    (r : Render) (ls : list (BluetoothRemoteGATTCharacteristic * Render)) :
  (c', r) ∈ List.filter (fun l => negb (same_listener c h l)) ls
  <-> (c', r) ∈ ls /\ (c' <> c \/ r_handler r <> h).
Proof.
  rewrite !list_elem_of_In, List.filter_In.
  unfold same_listener. cbn.
  rewrite negb_true_iff, andb_false_iff, !bool_decide_eq_false. reflexivity.
Qed.

Lemma disconnect_listeners_kept (r0 : Render) (w : World)
    (c : BluetoothRemoteGATTCharacteristic) (r : Render) :
  (c, r) ∈ value_listeners (disconnect r0 w)
  <-> (c, r) ∈ value_listeners w
      /\ (characteristic (r_state r0) <> Some c \/ r_handler r <> r_handler r0).
Proof.
  unfold disconnect.
  destruct (characteristic (r_state r0)) as [c0|] eqn:Ec;
    (destruct (device (r_state r0)) as [d|];
     [destruct (bool_decide (d ∈ gatt_connected _))|]); cbn;
    rewrite ?filter_listener_keeps;
    (split; [intros H|intros [H Hor]]).
  all: try (destruct H as [H Hor]; split; [exact H|];
            destruct Hor as [Hne|Hne]; [left; congruence|right; exact Hne]).
  all: try (split; [exact H|];
            destruct Hor as [Hne|Hne]; [|right; exact Hne];
            destruct (decide (c = c0)) as [->|Hd]; [contradiction|left; exact Hd]).
  all: try (split; [exact H|left; discriminate]).
  all: try exact H.
Qed.

(** X7.  [disconnect] unsubscribes only the handler of the current render.
    It removes a listener of the current characteristic that was registered
    with that same function, and keeps every other one.  Once a listener has
    reported a stable reading the next render has a new handler, so the
    [disconnect] that follows calls [removeEventListener] with a function that
    was never registered and the listener stays on the characteristic. *)
Theorem disconnect_unsubscribes_only_the_current_handler (w : World)
    (c : BluetoothRemoteGATTCharacteristic) (r : Render) :
  (c, r) ∈ value_listeners w ->
  (characteristic (state w) = Some c -> r_handler r = handler w ->
   (c, r) ∉ value_listeners (disconnect (render w) w))
  /\ (characteristic (state w) <> Some c \/ r_handler r <> handler w ->
      (c, r) ∈ value_listeners (disconnect (render w) w))
  /\ (forall data now reading,
        (r_handler r <= handler w)%nat ->
        parseScaleData data now = Ok (Some reading) ->
        isStable reading && differs_from (lastStableReading (r_state r)) reading = true ->
        let w1 := dispatch_value c (Some data) now w in
        (c, r) ∈ value_listeners (disconnect (render w1) w1)).
Proof.
  intros Hin. split; [|split].
  - intros Hc Hh Hkept. apply disconnect_listeners_kept in Hkept as [_ [H|H]]; cbn in H;
      contradiction.
  - intros Hor. apply disconnect_listeners_kept. split; [exact Hin|exact Hor].
  - intros data now reading Hle Hparse Hfire w1.
    destruct (dispatch_value_handler c data now reading w Hparse) as (Hl & _ & _ & Hlt).
    fold w1 in Hl, Hlt. specialize (Hlt r Hin Hfire).
    apply disconnect_listeners_kept. split; [rewrite Hl; exact Hin|].
    right. cbn. lia.
Qed.

Lemma disconnect_unsubscribes_only_the_current_handler_witness :
  (2%nat, firstRender)
  ∈ value_listeners
      (disconnect (render (run two_equal_stable_frames (initialWorld true)))
                  (run two_equal_stable_frames (initialWorld true))).
Proof.
  assert ((2%nat, firstRender)
          ∈ value_listeners (run two_equal_stable_frames (initialWorld true))) as Hin
    by (vm_compute; apply list_elem_of_here).
  destruct (disconnect_unsubscribes_only_the_current_handler
              (run two_equal_stable_frames (initialWorld true)) 2%nat firstRender Hin)
    as (_ & B & _).
  apply B. right. vm_compute. discriminate.
Defined.

(** ** The readings that reach the consumer *)

Lemma parse_Some_decoded_ok (data : DataView) (now : Z) (r : ScaleReading) :
  parseScaleData data now = Ok (Some r) -> decoded_ok r.
Proof.
  intros H.
  destruct (Z.eq_dec (byteLength data) 12) as [Hlen|Hlen];
    [|rewrite parseScaleData_not_12 in H by assumption; discriminate].
  rewrite parseScaleData_12 in H by assumption. injection H as H.
  unfold method2 in H. apply method2_from_Some in H as (k & _ & Hk).
  apply method2_try_Some in Hk as (Hpos & Hle & (code & Hunit) & _).
  unfold decoded_ok. rewrite Hunit.
  split; [assumption|]. split; [assumption|]. apply unit_of_code_range.
Qed.

Lemma readings_inv_mono (w w' : World) :
  readings_inv w ->
  (forall r, currentReading (state w') = Some r -> currentReading (state w) = Some r) ->
  lastStableReading (state w') = lastStableReading (state w) ->
  (exists l, log w' = log w ++ l /\ Forall reported_ok l) ->
  readings_inv w'.
Proof.
  intros (Hc & Hs & Hl) Hcur Hlast (l & Hlog & Hok). split; [|split].
  - intros r Hr. apply Hc, Hcur, Hr.
  - rewrite Hlast. exact Hs.
  - rewrite Hlog. apply Forall_app. split; assumption.
Qed.

Ltac log_extension :=
  first [ exists []; split; [by rewrite app_nil_r | constructor]
        | eexists [_]; split; [reflexivity | repeat constructor]
        | eexists [_; _]; split; [by rewrite <- app_assoc | repeat constructor] ].

Ltac readings_frame w :=
  apply (readings_inv_mono w);
  [ assumption | cbn; try discriminate; auto | reflexivity | cbn; log_extension ].

Lemma readings_inv_handler (r : Render) (value : option DataView) (now : Z) (w : World) :
  readings_inv w -> readings_inv (handleCharacteristicValueChanged r value now w).
Proof.
  intros H. unfold handleCharacteristicValueChanged.
  destruct value as [data|]; [|assumption].
  destruct (parseScaleData data now) as [[reading|]|] eqn:E; try assumption.
  pose proof (parse_Some_decoded_ok data now reading E) as Hok.
  destruct H as (Hc & Hs & Hl).
  destruct (isStable reading) eqn:Est; cbn.
  - destruct (differs_from _ reading); cbn.
    + split; [|split]; cbn.
      * intros r0 [= <-]. exact Hok.
      * intros r0 [= <-]. split; assumption.
      * apply Forall_app. split; [assumption|].
        constructor; [split; [exact Hok|exact Est]|constructor].
    + split; [|split]; cbn; [intros r0 [= <-]; exact Hok|assumption|assumption].
  - split; [|split]; cbn; [intros r0 [= <-]; exact Hok|assumption|assumption].
Qed.

Lemma gattserverdisconnected_listeners_reading (d : BluetoothDevice)
    (ls : list BluetoothDevice) (w : World) :
  let w' := foldl (fun w d' => if bool_decide (d' = d)
                                then on_gattserverdisconnected w else w) w ls in
  forall r, currentReading (state w') = Some r -> currentReading (state w) = Some r.
Proof.
  revert w. induction ls as [|d' ls IH]; intros w; cbn [foldl]; [auto|].
  destruct (bool_decide (d' = d)); [|apply IH].
  intros r Hr. apply IH in Hr. discriminate Hr.
Qed.

Lemma readings_inv_step (ev : Event) (w : World) :
  readings_inv w -> readings_inv (step ev w).
Proof.
  intros H.
  assert (forall r, readings_inv (connectToScaleDevice r w)) as Hconnect.
  { intros r. unfold connectToScaleDevice.
    destruct (bluetoothSupported w); readings_frame w. }
  assert (forall r, readings_inv (disconnect r w)) as Hdisconnect.
  { intros r. unfold disconnect.
    destruct (characteristic (r_state r)) as [c|], (device (r_state r)) as [d|];
      try destruct (bool_decide (d ∈ gatt_connected _)); readings_frame w. }
  destruct ev as [ | | |i o|i o|i o|c value now|d| ]; cbn [step].
  - unfold button_onClick. destruct (connectionState (state w)); auto.
  - apply Hconnect.
  - apply Hdisconnect.
  - unfold requestScaleDevice_settled.
    destruct (pending w !! i) as [[r|r d|r d c]|]; try assumption.
    destruct o; readings_frame w.
  - unfold connectToScale_settled.
    destruct (pending w !! i) as [[r|r d|r d c]|]; try assumption.
    destruct o; readings_frame w.
  - unfold startNotifications_settled.
    destruct (pending w !! i) as [[r|r d|r d c]|]; try assumption.
    destruct o as [[]|e]; [|readings_frame w].
    cbn zeta. unfold addEventListener. cbn.
    destruct (existsb _ _); readings_frame w.
  - clear Hconnect Hdisconnect.
    unfold dispatch_value. generalize (value_listeners w) as ls. intros ls.
    revert w H. induction ls as [|l ls IH]; intros w H; cbn [foldl]; [assumption|].
    destruct (bool_decide (l.1 = c)); apply IH; [apply readings_inv_handler|];
      assumption.
  - destruct (dispatch_disconnected_frame d w) as (_ & _ & Hl & _).
    destruct (gattserverdisconnected_listeners_reset d (disconnect_listeners w)
                (set_gatt_connected (gatt_connected w ∖ {[d]}) w)) as (_ & _ & Hs & _).
    pose proof (gattserverdisconnected_listeners_reading d (disconnect_listeners w)
                  (set_gatt_connected (gatt_connected w ∖ {[d]}) w)) as Hc.
    apply (readings_inv_mono w); [assumption|exact Hc|exact Hs|].
    exists []. split; [rewrite app_nil_r; exact Hl|constructor].
  - readings_frame w.
Qed.

(** X8.  In every world the mounted connector can reach, whatever the
    platform delivers: each reading passed to [onStableReading] is stable, and
    it, the reading on display and [lastStableReading] all have a weight
    greater than 0 and at most 5000 and one of the units "g", "oz", "ml" and
    "fl oz".  The consumer never sees a negative, zero or unstable reading. *)
Theorem consumer_only_sees_decoded_stable_readings (supported : bool) (w : World) :
  reachable supported w ->
  (forall r, onStableReading_called r ∈ log w -> decoded_ok r /\ isStable r = true)
  /\ (forall r, currentReading (state w) = Some r -> decoded_ok r)
  /\ (forall r, lastStableReading (state w) = Some r ->
                decoded_ok r /\ isStable r = true).
Proof.
  intros Hr.
  assert (readings_inv w) as (Hc & Hs & Hl).
  { induction Hr as [|w ev _ IH]; [|apply readings_inv_step, IH].
    split; [|split]; cbn; [discriminate|discriminate|constructor]. }
  split; [|split; assumption].
  intros r Hin. rewrite Forall_forall in Hl. apply (Hl _ Hin).
Qed.

Lemma consumer_only_sees_decoded_stable_readings_witness :
  decoded_ok (reading_100g 1200) /\ isStable (reading_100g 1200) = true.
Proof.
  destruct (consumer_only_sees_decoded_stable_readings true
              (run two_equal_stable_frames (initialWorld true))) as (A & _ & _).
  - apply reachable_run, reachable_initial.
  - apply A. vm_compute. do 4 apply list_elem_of_further. apply list_elem_of_here.
Defined.

(** ** More IEEE 754 facts *)

Lemma add_nan_r (x : float) : (x + nan)%float = nan.
Proof.
  rewrite <- (SF2Prim_Prim2SF (x + nan)), FloatAxioms.add_spec.
  change (Prim2SF nan) with S754_nan.
  destruct (Prim2SF x); reflexivity.
Qed.

Lemma add_nan_l (x : float) : (nan + x)%float = nan.
Proof.
  rewrite <- (SF2Prim_Prim2SF (nan + x)), FloatAxioms.add_spec.
  change (Prim2SF nan) with S754_nan.
  destruct (Prim2SF x); reflexivity.
Qed.

Lemma div_nan_r (x : float) : (x / nan)%float = nan.
Proof.
  rewrite <- (SF2Prim_Prim2SF (x / nan)), FloatAxioms.div_spec.
  change (Prim2SF nan) with S754_nan.
  destruct (Prim2SF x); reflexivity.
Qed.

Lemma div_nan_l (x : float) : (nan / x)%float = nan.
Proof.
  rewrite <- (SF2Prim_Prim2SF (nan / x)), FloatAxioms.div_spec.
  change (Prim2SF nan) with S754_nan.
  destruct (Prim2SF x); reflexivity.
Qed.

Lemma ltb_leb (x y : float) : (x <? y)%float = true -> (x <=? y)%float = true.
Proof.
  rewrite FloatAxioms.ltb_spec, FloatAxioms.leb_spec. unfold SFltb, SFleb.
  destruct (SFcompare (Prim2SF x) (Prim2SF y)) as [[]|]; congruence.
Qed.

Lemma eqb_leb (x y : float) : (x =? y)%float = true -> (x <=? y)%float = true.
Proof.
  rewrite FloatAxioms.eqb_spec, FloatAxioms.leb_spec. unfold SFeqb, SFleb.
  destruct (SFcompare (Prim2SF x) (Prim2SF y)) as [[]|]; congruence.
Qed.

(** ** Percent of the daily value and the bars *)

Lemma dailyValues_truthy (nutrient : string) (dv : float) :
  dailyValues !! nutrient = Some dv -> truthy dv = true.
Proof.
  intros H. apply elem_of_list_to_map_2 in H.
  repeat (apply elem_of_cons in H as [[= -> ->]|H]; [reflexivity|]).
  by apply elem_of_nil in H.
Qed.

Lemma dailyValues_not_inherited (nutrient : string) :
  nutrient ∈ Object_prototype_names -> dailyValues !! nutrient = None.
Proof.
  intros H. unfold Object_prototype_names in H.
  repeat (apply elem_of_cons in H as [->|H]; [reflexivity|]).
  by apply elem_of_nil in H.
Qed.

(** X9.  [calculatePercentDV] on the edges of its table: a nutrient that has
    no daily value gives 0 for every amount, except the names that the table
    inherits from [Object.prototype] ("constructor", "toString", ...), which
    give [NaN]; and for every nutrient of the table a [NaN] amount gives [NaN],
    not 0. *)
Theorem calculatePercentDV_edges :
  (forall nutrient amount,
      dailyValues !! nutrient = None -> nutrient ∉ Object_prototype_names ->
      calculatePercentDV nutrient amount = 0%float)
  /\ (forall nutrient amount,
        nutrient ∈ Object_prototype_names ->
        calculatePercentDV nutrient amount = NaN)
  /\ (forall nutrient dv,
        dailyValues !! nutrient = Some dv ->
        calculatePercentDV nutrient NaN = NaN).
Proof.
  split; [|split].
  - intros nutrient amount Hnone Hnot. unfold calculatePercentDV, get.
    rewrite Hnone, bool_decide_eq_false_2 by assumption. reflexivity.
  - intros nutrient amount Hin. unfold calculatePercentDV, get.
    rewrite (dailyValues_not_inherited _ Hin), bool_decide_eq_true_2 by assumption.
    unfold NaN. rewrite div_nan_r. reflexivity.
  - intros nutrient dv H. unfold calculatePercentDV, get.
    rewrite H, (dailyValues_truthy _ _ H). unfold NaN. rewrite div_nan_l. reflexivity.
Qed.

Lemma calculatePercentDV_edges_witness :
  calculatePercentDV "sugar" 12 = 0%float
  /\ calculatePercentDV "constructor" 12 = NaN
  /\ calculatePercentDV "protein" NaN = NaN.
Proof.
  destruct calculatePercentDV_edges as (A & B & C).
  split; [|split].
  - apply A; [reflexivity|]. vm_compute. intros H.
    repeat (apply elem_of_cons in H as [H|H]; [discriminate H|]).
    by apply elem_of_nil in H.
  - apply B. unfold Object_prototype_names. apply list_elem_of_here.
  - apply (C "protein" 50%float). reflexivity.
Defined.

(** X10.  The width of a bar is never [NaN] and never more than 100, whatever
    the percentage: [Math.min] caps it at 100 and [|| 0] turns a [NaN]
    percentage into the width 0. *)
Theorem bar_width_is_capped (bar : SummaryView.NutrientBar) :
  PrimFloat.is_nan (SummaryView.barWidth bar) = false
  /\ (SummaryView.barWidth bar <=? 100)%float = true.
Proof.
  unfold SummaryView.barWidth, SummaryView.animatedBar, or_default, Math_min.
  generalize (SummaryView.percentDV bar) as p. intros p.
  destruct (PrimFloat.is_nan p || PrimFloat.is_nan 100) eqn:En;
    [split; reflexivity|].
  apply orb_false_elim in En as [Hp _].
  destruct (p <? 100)%float eqn:Elt.
  - destruct (truthy p); [|split; reflexivity].
    split; [exact Hp|apply ltb_leb, Elt].
  - destruct (p =? 100)%float eqn:Eeq; [|split; reflexivity].
    destruct (PrimFloat.get_sign p); [|split; reflexivity].
    destruct (truthy p); [|split; reflexivity].
    split; [exact Hp|apply eqb_leb, Eeq].
Qed.

(** ** The totals of the summary *)

Lemma totals_stay_NaN (l : list NutritionData) :
  forall acc,
    (SummaryView.totalCalories acc = NaN ->
     SummaryView.totalCalories (foldl SummaryView.add_ingredient acc l) = NaN)
    /\ (SummaryView.totalProtein acc = NaN ->
        SummaryView.totalProtein (foldl SummaryView.add_ingredient acc l) = NaN)
    /\ (SummaryView.totalCarbs acc = NaN ->
        SummaryView.totalCarbs (foldl SummaryView.add_ingredient acc l) = NaN)
    /\ (SummaryView.totalFat acc = NaN ->
        SummaryView.totalFat (foldl SummaryView.add_ingredient acc l) = NaN).
Proof.
  induction l as [|x l IH]; intros acc; cbn [foldl]; [auto|].
  destruct (IH (SummaryView.add_ingredient acc x)) as (I1 & I2 & I3 & I4).
  repeat split; intros H; [apply I1|apply I2|apply I3|apply I4]; cbn;
    rewrite H; apply add_nan_l.
Qed.

(** One ingredient with a [NaN] nutrient makes the total of that nutrient
    [NaN], wherever it stands in the list. *)
Lemma NaN_ingredient_poisons_totals (l1 l2 : list NutritionData) (x : NutritionData) :
  let s := SummaryView.summary (l1 ++ x :: l2) in
  (calories x = NaN -> SummaryView.totalCalories s = NaN)
  /\ (protein x = NaN -> SummaryView.totalProtein s = NaN)
  /\ (carbs x = NaN -> SummaryView.totalCarbs s = NaN)
  /\ (fat x = NaN -> SummaryView.totalFat s = NaN).
Proof.
  cbn zeta. unfold SummaryView.summary. rewrite foldl_app. cbn [foldl].
  destruct (totals_stay_NaN l2
              (SummaryView.add_ingredient
                 (foldl SummaryView.add_ingredient SummaryView.no_ingredients l1) x))
    as (I1 & I2 & I3 & I4).
  repeat split; intros H; [apply I1|apply I2|apply I3|apply I4]; cbn;
    rewrite H; apply add_nan_r.
Qed.

Lemma getNutritionData_fluid (lookup : string -> BaseData) (ingredient : string)
    (w : float) (u : string) :
  fluid u ->
  let x := getNutritionData lookup ingredient w u in
  calories x = NaN /\ protein x = NaN /\ carbs x = NaN /\ fat x = NaN
  /\ or_default (fiber x) 0 = 0%float.
Proof.
  intros Hu x.
  assert (convertWeight w u "g" = NaN) as Hg.
  { apply convertWeight_fluid; [|left; assumption].
    destruct Hu as [-> | ->]; discriminate. }
  subst x. unfold getNutritionData, fetchUSDANutrition. cbn [try_catch].
  rewrite Hg. unfold calculateNutritionForWeight.
  change (NaN / 100)%float with NaN.
  cbn [calories protein carbs fat fiber].
  rewrite !round1_NaN. unfold NaN at 2. rewrite mul_nan_r.
  repeat split; try reflexivity.
  destruct (optional_nutrient_NaN (b_fiber (lookup ingredient))) as [-> | ->];
    reflexivity.
Qed.

(** X11.  One ingredient weighed in "ml" or "fl oz" spoils the summary: the
    totals of calories, protein, carbohydrates and fat of any list that
    contains it are [NaN], so their percentages of the daily value are [NaN]
    and their bars have width 0, whatever else is in the list.  The fiber
    total is spared, because [ingredient.fiber || 0] counts the [NaN] (or
    missing) fiber of that ingredient as 0. *)
Theorem fluid_ingredient_spoils_the_summary
    (getMockNutritionData : string -> BaseData) (ingredient : string) (w : float)
    (u : string) (l1 l2 : list NutritionData) :
  fluid u ->
  let x := getNutritionData getMockNutritionData ingredient w u in
  let s := SummaryView.summary (l1 ++ x :: l2) in
  SummaryView.totalCalories s = NaN
  /\ SummaryView.totalProtein s = NaN
  /\ SummaryView.totalCarbs s = NaN
  /\ SummaryView.totalFat s = NaN
  /\ or_default (fiber x) 0 = 0%float
  /\ (forall bar,
        bar ∈ take 4 (SummaryView.nutrientBars s) ->
        SummaryView.percentDV bar = NaN /\ SummaryView.barWidth bar = 0%float).
Proof.
  intros Hu x s.
  destruct (getNutritionData_fluid getMockNutritionData ingredient w u Hu)
    as (Hc & Hp & Hcb & Hf & Hfib). fold x in Hc, Hp, Hcb, Hf, Hfib.
  destruct (NaN_ingredient_poisons_totals l1 l2 x) as (T1 & T2 & T3 & T4).
  fold s in T1, T2, T3, T4.
  specialize (T1 Hc). specialize (T2 Hp). specialize (T3 Hcb). specialize (T4 Hf).
  repeat split; try assumption.
  all: unfold SummaryView.nutrientBars in H; cbn [take] in H;
    rewrite T1, T2, T3, T4 in H;
    repeat (apply elem_of_cons in H as [->|H]; [reflexivity|]);
    by apply elem_of_nil in H.
Qed.

Lemma fluid_ingredient_spoils_the_summary_witness :
  SummaryView.totalCalories
    (SummaryView.summary
       [getNutritionData (fun _ => Build_BaseData (Some 42%float) None None None
                                     None None None None None None)
                         "milk" 250 "ml"]) = NaN.
Proof.
  apply (fluid_ingredient_spoils_the_summary
           (fun _ => Build_BaseData (Some 42%float) None None None None None None
                       None None None) "milk" 250 "ml" [] []).
  left. reflexivity.
Defined.

(** ** The ingredient list and its storage *)

Lemma slice_last_10 {A : Type} (l : list A) :
  slice (-10) l = drop (length l - 10) l.
Proof.
  unfold slice. change (-10 <? 0) with true. cbv iota. f_equal. lia.
Qed.

Lemma slice_last_10_app {A : Type} (l xs : list A) :
  slice (-10) (slice (-10) l ++ xs) = slice (-10) (l ++ xs).
Proof.
  rewrite !slice_last_10, !length_app, length_drop.
  destruct (Nat.le_gt_cases (length l) 10) as [Hle|Hgt].
  - replace (length l - 10)%nat with 0%nat by lia. rewrite !drop_0.
    rewrite Nat.sub_0_r. reflexivity.
  - rewrite <- (drop_app_le l xs (length l - 10)) by lia.
    rewrite drop_drop. f_equal. lia.
Qed.

(** X12.  The route component keeps the ten most recent ingredients: after
    any non-empty series of confirmations the list is the last ten entries of
    the previous list followed by the confirmed ones, in their order; it has
    at most ten entries and ends with the last confirmed one. *)
Theorem confirmations_keep_the_last_ten {A : Type} (init xs : list A) :
  xs <> [] ->
  foldl Ingredients.confirm_update init xs = slice (-10) (init ++ xs)
  /\ (length (foldl Ingredients.confirm_update init xs) <= 10)%nat
  /\ last (foldl Ingredients.confirm_update init xs) = last xs.
Proof.
  intros Hne.
  assert (foldl Ingredients.confirm_update init xs = slice (-10) (init ++ xs)) as Heq.
  { induction xs as [|x xs IH] using rev_ind; [contradiction|].
    rewrite foldl_app. cbn [foldl]. unfold Ingredients.confirm_update at 1.
    destruct xs as [|y ys].
    - reflexivity.
    - rewrite IH by discriminate.
      rewrite slice_last_10_app, <- app_assoc. reflexivity. }
  split; [exact Heq|]. rewrite Heq, slice_last_10. split.
  - rewrite length_drop. lia.
  - apply last_is_Some in Hne as [x Hx]. rewrite Hx.
    apply last_Some in Hx as [ys ->].
    rewrite app_assoc, length_app. cbn [length].
    rewrite drop_app_le by lia. apply last_snoc.
Qed.

Lemma confirmations_keep_the_last_ten_witness :
  foldl Ingredients.confirm_update [1; 2; 3; 4; 5; 6; 7; 8; 9; 10] [11; 12]
  = [3; 4; 5; 6; 7; 8; 9; 10; 11; 12].
Proof.
  apply (confirmations_keep_the_last_ten [1; 2; 3; 4; 5; 6; 7; 8; 9; 10] [11; 12]).
  discriminate.
Defined.

(** X13.  The storage helpers on storage that is empty, cleared, blocked,
    full or corrupt.  After [clearStoredIngredients], [loadIngredients]
    returns the empty list and [addIngredient] returns the new ingredient
    alone.  When the browser blocks [localStorage], saving changes nothing and
    loading gives the empty list; when the quota refuses the value, saving
    changes nothing.  Otherwise saving stores the serialisation of the last
    ten ingredients under "scale-ingredients" and touches no other key.
    Stored text that [JSON.parse] rejects, or that is not an array, loads as
    the empty list. *)
Theorem storage_helpers_edges {A : Type}
    (JSON_stringify : list A -> string)
    (JSON_parse : string -> result (option (list A)))
    (ls : Ingredients.LocalStorage) :
  Ingredients.loadIngredients JSON_parse (Ingredients.clearStoredIngredients ls) = []
  /\ (forall newIngredient fits,
        (Ingredients.addIngredient JSON_stringify JSON_parse newIngredient fits
           (Ingredients.clearStoredIngredients ls)).1 = [newIngredient])
  /\ (Ingredients.blocked ls = true ->
      Ingredients.loadIngredients JSON_parse ls = []
      /\ forall l fits, Ingredients.saveIngredients JSON_stringify l fits ls = ls)
  /\ (forall l, Ingredients.saveIngredients JSON_stringify l false ls = ls)
  /\ (Ingredients.blocked ls = false ->
      forall l,
        let ls' := Ingredients.saveIngredients JSON_stringify l true ls in
        Ingredients.items ls' !! Ingredients.STORAGE_KEY
        = Some (JSON_stringify (slice (-10) l))
        /\ forall key, key <> Ingredients.STORAGE_KEY ->
                       Ingredients.items ls' !! key = Ingredients.items ls !! key)
  /\ (forall text,
        Ingredients.blocked ls = false ->
        Ingredients.items ls !! Ingredients.STORAGE_KEY = Some text ->
        (exists e, JSON_parse text = Throw e) \/ JSON_parse text = Ok None ->
        Ingredients.loadIngredients JSON_parse ls = []).
Proof.
  assert (Ingredients.loadIngredients JSON_parse (Ingredients.clearStoredIngredients ls)
          = []) as Hclear.
  { unfold Ingredients.loadIngredients, Ingredients.clearStoredIngredients,
      Ingredients.getItem, Ingredients.removeItem.
    destruct (Ingredients.blocked ls) eqn:Eb; cbn; [rewrite Eb; reflexivity|].
    rewrite lookup_delete_eq. reflexivity. }
  split; [exact Hclear|]. split; [|split; [|split; [|split]]].
  - intros newIngredient fits. unfold Ingredients.addIngredient. cbn [fst].
    rewrite Hclear. reflexivity.
  - intros Hb. split.
    + unfold Ingredients.loadIngredients, Ingredients.getItem. rewrite Hb. reflexivity.
    + intros l fits. unfold Ingredients.saveIngredients, Ingredients.setItem.
      rewrite Hb. reflexivity.
  - intros l. unfold Ingredients.saveIngredients, Ingredients.setItem.
    destruct (Ingredients.blocked ls); reflexivity.
  - intros Hb l ls'. subst ls'.
    unfold Ingredients.saveIngredients, Ingredients.setItem. rewrite Hb. cbn.
    split; [apply lookup_insert_eq|].
    intros key Hne. apply lookup_insert_ne. congruence.
  - intros text Hb Htext Hbad.
    unfold Ingredients.loadIngredients, Ingredients.getItem. rewrite Hb. cbn.
    rewrite Htext. destruct (String.eqb text ""); [reflexivity|].
    destruct Hbad as [[e ->] | ->]; reflexivity.
Qed.

Lemma storage_helpers_edges_witness :
  Ingredients.loadIngredients (A := nat)
    (fun _ => Throw (Error "SyntaxError"))
    {| Ingredients.items := {[ Ingredients.STORAGE_KEY := "not json" ]};
       Ingredients.blocked := false |} = [].
Proof.
  destruct (storage_helpers_edges (A := nat) (fun _ => "[]")
              (fun _ => Throw (Error "SyntaxError"))
              {| Ingredients.items := {[ Ingredients.STORAGE_KEY := "not json" ]};
                 Ingredients.blocked := false |}) as (_ & _ & _ & _ & _ & H).
  apply (H "not json"); [reflexivity|reflexivity|].
  left. eexists. reflexivity.
Defined.

(** ** The handshake when every step succeeds *)

Lemma delete_insert_same {A : Type} (l : list A) (i : nat) (x : A) :
  delete i (<[i := x]> l) = delete i l.
Proof.
  revert i. induction l as [|y l IH]; intros [|i]; cbn; try reflexivity.
  f_equal. apply IH.
Qed.

(** X14.  A run of [connectToScaleDevice] whose three steps succeed, taken
    from the suspension at [requestScaleDevice()]: it ends [connected] with the
    chosen device and its characteristic in the state and the link up, the
    value listener registered is the handler of the render the run was started
    from, the device has its [gattserverdisconnected] listener, the three
    steps are logged in order and the run is gone from the suspended ones. *)
Theorem successful_handshake (w : World) (i : nat) (r : Render)
    (d : BluetoothDevice) (c : BluetoothRemoteGATTCharacteristic) :
  pending w !! i = Some (await_requestScaleDevice r) ->
  let w1 := requestScaleDevice_settled i (inl d) w in
  let w2 := connectToScale_settled i (characteristic_found c) w1 in
  let w3 := startNotifications_settled i (inl ()) w2 in
  connectionState (state w3) = st_connected
  /\ device (state w3) = Some d
  /\ characteristic (state w3) = Some c
  /\ d ∈ gatt_connected w3
  /\ existsb (same_listener c (r_handler r)) (value_listeners w3) = true
  /\ d ∈ disconnect_listeners w3
  /\ log w3 = log w ++ [requestScaleDevice_resolved d; connectToScale_resolved d c;
                        startNotifications_resolved c]
  /\ pending w3 = delete i (pending w)
  /\ currentReading (state w3) = currentReading (state w)
  /\ lastStableReading (state w3) = lastStableReading (state w).
Proof.
  intros H w1 w2 w3.
  assert (i < length (pending w))%nat as Hi by (eapply lookup_lt_Some; exact H).
  assert (w1 = set_pending (<[i := await_connectToScale r d]> (pending w))
                 (setDevice (Some d) (record (requestScaleDevice_resolved d) w)))
    as E1 by (subst w1; unfold requestScaleDevice_settled; rewrite H; reflexivity).
  assert (pending w1 !! i = Some (await_connectToScale r d)) as H1
    by (rewrite E1; cbn; apply list_lookup_insert_eq, Hi).
  assert (w2 = set_pending (<[i := await_startNotifications r d c]> (pending w1))
                 (setCharacteristic (Some c)
                    (record (connectToScale_resolved d c)
                       (set_gatt_connected ({[d]} ∪ gatt_connected w1) w1))))
    as E2 by (subst w2; unfold connectToScale_settled; rewrite H1; reflexivity).
  assert (pending w2 !! i = Some (await_startNotifications r d c)) as H2.
  { rewrite E2. cbn. apply list_lookup_insert_eq.
    rewrite E1. cbn. rewrite length_insert. exact Hi. }
  assert (pending w2 = <[i := await_startNotifications r d c]> (pending w)) as Hp2.
  { rewrite E2. cbn. rewrite E1. cbn. apply list_insert_insert_eq. }
  subst w3. unfold startNotifications_settled. rewrite H2. cbn zeta.
  unfold addEventListener. cbn.
  assert (forall v v' : World,
             existsb (same_listener c (r_handler r)) (value_listeners v) = true ->
             value_listeners v' = value_listeners v ->
             existsb (same_listener c (r_handler r)) (value_listeners v') = true)
    as Hsame by (intros v v' Hv ->; exact Hv).
  destruct (existsb (same_listener c (r_handler r)) (value_listeners w2)) eqn:Ex; cbn.
  all: rewrite Hp2, delete_insert_same.
  all: rewrite E2; cbn; rewrite E1; cbn.
  all: repeat split; try reflexivity; try set_solver.
  all: try (rewrite <- !app_assoc; reflexivity).
  - rewrite E2 in Ex. cbn in Ex. rewrite E1 in Ex. cbn in Ex. exact Ex.
  - rewrite existsb_app. cbn. unfold same_listener. cbn.
    rewrite !bool_decide_eq_true_2 by reflexivity. apply orb_true_r.
Qed.

Lemma successful_handshake_witness :
  connectionState
    (state (startNotifications_settled 0 (inl ())
              (connectToScale_settled 0 (characteristic_found 2%nat)
                 (requestScaleDevice_settled 0 (inl 1%nat)
                    (step click (initialWorld true))))))
  = st_connected.
Proof.
  apply (successful_handshake (step click (initialWorld true)) 0
           (render (initialWorld true)) 1%nat 2%nat).
  reflexivity.
Defined.
